(** * The assistant of main.py and its QnA matching core

    A shallow embedding of the program. The first part is the
    question/answer matcher (class QnAModel): corpus loading, text
    normalisation, TF-IDF indexing and confidence-gated selection; the
    stand-alone script Traning_Model/model.py, an earlier version of the
    same matcher, is embedded next to it. The second part is the assistant
    around the matcher (class IshaAssistant): command processing, the HTTP
    handler, the microphone, the connectivity probe; and the voice of the
    script (Head/Mouth.py).

    Conventions of the embedding.
    - Text is [string] from the Standard Library; character classes are
      Python's on code points below 128 (the corpus is English text).
    - Floating-point numbers are idealised as real numbers [R].
    - NLTK (tokeniser, stop-word list, Porter stemmer) is a parameter of the
      development, the type class [Nltk]; an instance with NLTK's stop-word
      list and stemmer serves to run the model. scikit-learn's vectoriser
      with its default settings and numpy's [argmax] are written out.
    - Python exceptions are values of [exn]; a call has an [outcome].
    - The object state and the log file are threaded through a small
      state-and-exception monad [M]; the assistant has a monad of its own,
      [Isha.IO], over the assistant, its matcher and a trace of events. *)

From Stdlib Require Import String Ascii List Bool Arith Lia.
From Stdlib Require Import Reals Lra.
From Stdlib Require Import Sorting.Mergesort Sorting.Permutation.
From Stdlib Require Import ZArith DecimalString.
Import ListNotations.

Local Open Scope string_scope.
Local Open Scope list_scope.
Local Open Scope nat_scope.

(** ** Exceptions and outcomes *)

Inductive exn : Type :=
| OSError
| UnicodeDecodeError
| ValueError (msg : string)
| NotFittedError
| IndexError.

Inductive outcome (A : Type) : Type :=
| Return (a : A)
| Raise (e : exn).

Arguments Return {A} a.
Arguments Raise {A} e.

Definition obind {A B : Type} (o : outcome A) (k : A -> outcome B) : outcome B :=
  match o with
  | Return a => k a
  | Raise e => Raise e
  end.

(** ** Python [str] operations used by the program *)

Module PyStr.

Definition newline : ascii := ascii_of_nat 10.
Definition carriage_return : ascii := ascii_of_nat 13.

(** [c.isspace()] for a code point below 128. *)
Definition isspace_char (c : ascii) : bool :=
  let n := nat_of_ascii c in
  ((9 <=? n) && (n <=? 13)) || ((28 <=? n) && (n <=? 32)).

Definition isdigit_char (c : ascii) : bool :=
  let n := nat_of_ascii c in (48 <=? n) && (n <=? 57).

Definition isupper_char (c : ascii) : bool :=
  let n := nat_of_ascii c in (65 <=? n) && (n <=? 90).

Definition islower_char (c : ascii) : bool :=
  let n := nat_of_ascii c in (97 <=? n) && (n <=? 122).

Definition isalnum_char (c : ascii) : bool :=
  isdigit_char c || isupper_char c || islower_char c.

Definition lower_char (c : ascii) : ascii :=
  if isupper_char c then ascii_of_nat (nat_of_ascii c + 32) else c.

(** [s.lower()] *)
Fixpoint lower (s : string) : string :=
  match s with
  | EmptyString => EmptyString
  | String c s' => String (lower_char c) (lower s')
  end.

(** [s.isalnum()]: every character alphanumeric and at least one character. *)
Fixpoint all_alnum (s : string) : bool :=
  match s with
  | EmptyString => true
  | String c s' => isalnum_char c && all_alnum s'
  end.

Definition isalnum (s : string) : bool :=
  match s with
  | EmptyString => false
  | _ => all_alnum s
  end.

(** Truth value of a string in a condition: non-empty. *)
Definition truthy (s : string) : bool :=
  match s with
  | EmptyString => false
  | _ => true
  end.

Fixpoint lstrip (s : string) : string :=
  match s with
  | EmptyString => EmptyString
  | String c s' => if isspace_char c then lstrip s' else s
  end.

Fixpoint rstrip (s : string) : string :=
  match s with
  | EmptyString => EmptyString
  | String c s' =>
      match rstrip s' with
      | EmptyString => if isspace_char c then EmptyString else String c EmptyString
      | r => String c r
      end
  end.

(** [s.strip()] *)
Definition strip (s : string) : string := rstrip (lstrip s).

(** [c in s] for a one-character needle. *)
Fixpoint contains (c : ascii) (s : string) : bool :=
  match s with
  | EmptyString => false
  | String d s' => Ascii.eqb d c || contains c s'
  end.

(** [s.split(c)]: cut at every occurrence of [c]. *)
Fixpoint split (c : ascii) (s : string) : list string :=
  match s with
  | EmptyString => [EmptyString]
  | String d s' =>
      if Ascii.eqb d c then EmptyString :: split c s'
      else match split c s' with
           | [] => [String d EmptyString]
           | p :: ps => String d p :: ps
           end
  end.

(** [s.split(c, 1)]: cut at the first occurrence of [c] only. *)
Fixpoint split1 (c : ascii) (s : string) : list string :=
  match s with
  | EmptyString => [EmptyString]
  | String d s' =>
      if Ascii.eqb d c then [EmptyString; s']
      else match split1 c s' with
           | [] => [String d EmptyString]
           | p :: ps => String d p :: ps
           end
  end.

(** [sep.join(parts)] *)
Definition join (sep : string) (parts : list string) : string :=
  String.concat sep parts.

(** The lines a text file yields when iterated in text mode: each of
    LF, CR LF and CR ends a line and is handed over as LF. *)
Fixpoint readlines (s : string) : list string :=
  match s with
  | EmptyString => []
  | String c s' =>
      if Ascii.eqb c newline then String newline EmptyString :: readlines s'
      else if Ascii.eqb c carriage_return then
        match s' with
        | String c2 s'' =>
            if Ascii.eqb c2 newline
            then String newline EmptyString :: readlines s''
            else String newline EmptyString :: readlines s'
        | EmptyString => [String newline EmptyString]
        end
      else match readlines s' with
           | [] => [String c EmptyString]
           | l :: ls => String c l :: ls
           end
  end.

(** [a, b = parts]: unpacking a list into two names. *)
Definition unpack2 (parts : list string) : outcome (string * string) :=
  match parts with
  | [a; b] => Return (a, b)
  | [] | [_] => Raise (ValueError "not enough values to unpack")
  | _ => Raise (ValueError "too many values to unpack")
  end.

End PyStr.

(** ** NLTK, as the program uses it

    [word_tokenize], the English stop-word list and the Porter stemmer come
    from the NLTK package and its downloaded data; the development is
    parametric in them. *)

Class Nltk : Type := {
  word_tokenize : string -> list string;
  stop_words : list string;
  stem : string -> string
}.

(** ** scikit-learn and numpy, as the program uses them

    [TfidfVectorizer()] with its default settings: lower-casing, tokens that
    are runs of at least two word characters, a sorted vocabulary, raw term
    counts, smoothed inverse document frequency, L2-normalised rows. *)

Module StringOrder <: Orders.TotalLeBool.
Definition t := string.
Definition leb := String.leb.
Definition leb_total : forall a1 a2, leb a1 a2 = true \/ leb a2 a1 = true :=
  String.leb_total.
End StringOrder.

Module StringSort := Sort StringOrder.

Module Sklearn.
Import PyStr.

Definition matrix : Type := list (list R).

Definition underscore : ascii := ascii_of_nat 95.

Definition is_word_char (c : ascii) : bool :=
  isalnum_char c || Ascii.eqb c underscore.

(** A finished run of word characters is a token when it has two or more. *)
Definition emit (cur : string) : list string :=
  if 2 <=? String.length cur then [cur] else [].

(** [re.findall] of the token pattern: maximal runs of word characters,
    scanned left to right with the current run in [cur]. *)
Fixpoint findall_words (s cur : string) : list string :=
  match s with
  | EmptyString => emit cur
  | String c s' =>
      if is_word_char c
      then findall_words s' (String.append cur (String c EmptyString))
      else emit cur ++ findall_words s' EmptyString
  end.

(** The analyser of the vectoriser: lower-case, then tokenise. *)
Definition analyze (doc : string) : list string :=
  findall_words (lower doc) EmptyString.

Inductive TfidfVectorizer : Type :=
| Unfitted
| Fitted (vocabulary_ : list string) (idf_ : list R).

(** One row of the count matrix: occurrences of each vocabulary term;
    tokens outside the vocabulary are ignored. *)
Definition count_row (vocab : list string) (tokens : list string) : list nat :=
  map (count_occ string_dec tokens) vocab.

Definition count_matrix (vocab : list string) (docs : list string) : list (list nat) :=
  map (fun d => count_row vocab (analyze d)) docs.

(** The vocabulary: the distinct tokens of all documents, sorted. *)
Definition learn_vocabulary (docs : list string) : list string :=
  StringSort.sort (nodup string_dec (concat (map analyze docs))).

Definition empty_vocabulary_error : exn :=
  ValueError "empty vocabulary; perhaps the documents only contain stop words".

(** [CountVectorizer.fit_transform]: learn the vocabulary, then count. *)
Definition count_fit_transform (docs : list string)
  : outcome (list string * list (list nat)) :=
  let vocab := learn_vocabulary docs in
  match vocab with
  | [] => Raise empty_vocabulary_error
  | _ => Return (vocab, count_matrix vocab docs)
  end.

(** Number of rows with a non-zero entry in column [k]. *)
Definition column_df (C : list (list nat)) (k : nat) : nat :=
  List.length (filter (fun row => negb (nth k row 0 =? 0)) C).

Definition document_frequency (ncols : nat) (C : list (list nat)) : list nat :=
  map (column_df C) (seq 0 ncols).

(** [TfidfTransformer.fit] with [smooth_idf]: log((1 + n) / (1 + df)) + 1. *)
Definition smooth_idf (n_samples df : nat) : R :=
  (ln (INR (n_samples + 1) / INR (df + 1)) + 1)%R.

Definition fit_idf (ncols : nat) (C : list (list nat)) : list R :=
  map (smooth_idf (List.length C)) (document_frequency ncols C).

Definition scale_row (idf : list R) (row : list nat) : list R :=
  map (fun cw => (INR (fst cw) * snd cw)%R) (combine row idf).

Definition sum_squares (v : list R) : R :=
  fold_right Rplus 0%R (map (fun x => (x * x)%R) v).

Definition l2_norm (v : list R) : R := sqrt (sum_squares v).

(** [normalize(norm='l2')] on one row: a row of norm zero is left alone. *)
Definition normalize_row (v : list R) : list R :=
  if Req_dec_T (l2_norm v) 0%R then v
  else map (fun x => (x / l2_norm v)%R) v.

(** [TfidfTransformer.transform] *)
Definition tfidf_transform (idf : list R) (C : list (list nat)) : matrix :=
  map (fun row => normalize_row (scale_row idf row)) C.

(** [TfidfVectorizer.fit_transform]; the vectoriser is fitted only when
    the call returns. *)
Definition fit_transform (docs : list string) : outcome (TfidfVectorizer * matrix) :=
  obind (count_fit_transform docs) (fun vc =>
    let idf := fit_idf (List.length (fst vc)) (snd vc) in
    Return (Fitted (fst vc) idf, tfidf_transform idf (snd vc))).

(** [TfidfVectorizer.transform] *)
Definition transform (v : TfidfVectorizer) (docs : list string) : outcome matrix :=
  match v with
  | Unfitted => Raise NotFittedError
  | Fitted vocab idf => Return (tfidf_transform idf (count_matrix vocab docs))
  end.

Definition dot (u v : list R) : R :=
  fold_right Rplus 0%R (map (fun ab => (fst ab * snd ab)%R) (combine u v)).

Definition same_width (A B : matrix) : bool :=
  forallb (fun a => forallb (fun b => List.length a =? List.length b) B) A.

(** [cosine_similarity(A, B)]: both arguments are L2-normalised row by
    row, then multiplied; arguments of different widths are refused. *)
Definition cosine_similarity (A B : matrix) : outcome matrix :=
  if same_width A B
  then Return (map (fun a => map (fun b => dot (normalize_row a) (normalize_row b)) B) A)
  else Raise (ValueError "Incompatible dimension for X and Y matrices").

End Sklearn.

Module Numpy.

(** Scan of [argmax]: [best] is the index of the largest value [bestv]
    seen so far, replaced only by a strictly larger one. *)
Fixpoint argmax_from (l : list R) (i best : nat) (bestv : R) : nat :=
  match l with
  | [] => best
  | x :: l' =>
      if Rlt_dec bestv x
      then argmax_from l' (S i) i x
      else argmax_from l' (S i) best bestv
  end.

(** [a.argmax()] over the flattened array. *)
Definition argmax (l : list R) : outcome nat :=
  match l with
  | [] => Raise (ValueError "attempt to get argmax of an empty sequence")
  | x :: l' => Return (argmax_from l' 1 0 x)
  end.

(** [a[i, j]] *)
Definition index2 (a : list (list R)) (i j : nat) : outcome R :=
  match nth_error a i with
  | Some row =>
      match nth_error row j with
      | Some x => Return x
      | None => Raise IndexError
      end
  | None => Raise IndexError
  end.

End Numpy.

(** ** The program state *)

Record qa : Type := { question : string; answer : string }.

Record QnAModel : Type := {
  path : string;
  dataset : list qa;
  vectorizer : option Sklearn.TfidfVectorizer;
  X : option Sklearn.matrix
}.

(** What the program writes to its log, one constructor per call site. *)
Inductive log_record : Type :=
| warning_not_found (p : string)
| warning_no_valid_lines
| info_trained (n : nat)
| exception_failed (e : exn).

(** What the operating system holds at a path. *)
Inductive file : Type :=
| NoFile
| Unreadable (e : exn)
| Text (content : string).

Record environment : Type := {
  DEFAULT_QNA_PATH : string;
  files : string -> file
}.

Record state : Type := { self : QnAModel; log : list log_record }.

(** ** State-and-exception monad *)

Definition M (A : Type) : Type := state -> outcome A * state.

Definition ret {A : Type} (a : A) : M A := fun s => (Return a, s).

Definition raise {A : Type} (e : exn) : M A := fun s => (Raise e, s).

Definition bind {A B : Type} (m : M A) (k : A -> M B) : M B :=
  fun s =>
    match m s with
    | (Return a, s') => k a s'
    | (Raise e, s') => (Raise e, s')
    end.

(** [try: body except Exception as e: handler(e)]; the state reached when
    the exception was raised is kept. *)
Definition try_except {A : Type} (body : M A) (handler : exn -> M A) : M A :=
  fun s =>
    match body s with
    | (Return a, s') => (Return a, s')
    | (Raise e, s') => handler e s'
    end.

Definition lift {A : Type} (o : outcome A) : M A := fun s => (o, s).

Definition get_self : M QnAModel := fun s => (Return (self s), s).

Definition logging (r : log_record) : M unit :=
  fun s => (Return tt, {| self := self s; log := log s ++ [r] |}).

Definition set_dataset (d : list qa) : M unit :=
  fun s => (Return tt,
            {| self := {| path := path (self s); dataset := d;
                          vectorizer := vectorizer (self s); X := X (self s) |};
               log := log s |}).

Definition set_vectorizer (v : Sklearn.TfidfVectorizer) : M unit :=
  fun s => (Return tt,
            {| self := {| path := path (self s); dataset := dataset (self s);
                          vectorizer := Some v; X := X (self s) |};
               log := log s |}).

Definition set_X (x : Sklearn.matrix) : M unit :=
  fun s => (Return tt,
            {| self := {| path := path (self s); dataset := dataset (self s);
                          vectorizer := vectorizer (self s); X := Some x |};
               log := log s |}).

Declare Scope monad_scope.
Delimit Scope monad_scope with monad.
Notation "x <- m ;; k" := (bind m (fun x => k))
  (at level 61, m at next level, right associativity) : monad_scope.
Notation "m ;; k" := (bind m (fun _ => k))
  (at level 61, right associativity) : monad_scope.

(** ** QnAModel *)

Section QnAModel.
Context {nltk : Nltk}.
Import PyStr.
Local Open Scope monad_scope.

Definition colon : ascii := ascii_of_nat 58.

Definition is_stop_word (t : string) : bool := existsb (String.eqb t) stop_words.

(** The stems [_preprocess_text] joins: tokens of the lower-cased text
    that are alphanumeric and not stop-words, each one stemmed. *)
Definition stemmed_tokens (text : string) : list string :=
  let tokens := word_tokenize (lower text) in
  map stem (filter (fun t => isalnum t && negb (is_stop_word t)) tokens).

Definition _preprocess_text (text : string) : string :=
  join " " (stemmed_tokens text).

(** [[ln.strip() for ln in f if ln.strip()]] *)
Definition stripped_lines (f : list string) : list string :=
  map strip (filter (fun ln => truthy (strip ln)) f).

(** The loop over the lines, with the list [pairs] built so far. *)
Fixpoint parse_lines (lines : list string) (pairs : list qa) : outcome (list qa) :=
  match lines with
  | [] => Return pairs
  | line :: rest =>
      if contains colon line then
        obind (unpack2 (split1 colon line)) (fun qa_ =>
          parse_lines rest
            (pairs ++ [{| question := strip (fst qa_); answer := strip (snd qa_) |}]))
      else parse_lines rest pairs
  end.

(** [open(path)] and the iteration over the file. *)
Definition open_lines (env : environment) (p : string) : outcome (list string) :=
  match files env p with
  | NoFile => Raise OSError
  | Unreadable e => Raise e
  | Text content => Return (readlines content)
  end.

Definition isfile (env : environment) (p : string) : bool :=
  match files env p with
  | NoFile => false
  | _ => true
  end.

Definition _load_and_train (env : environment) : M unit :=
  try_except
    (me <- get_self ;;
     if negb (isfile env (path me)) then
       logging (warning_not_found (path me))
     else
       f <- lift (open_lines env (path me)) ;;
       let lines := stripped_lines f in
       pairs <- lift (parse_lines lines []) ;;
       match pairs with
       | [] => logging warning_no_valid_lines
       | _ =>
           set_dataset pairs ;;
           me <- get_self ;;
           let corpus := map (fun e => _preprocess_text (question e)) (dataset me) in
           set_vectorizer Sklearn.Unfitted ;;
           vx <- lift (Sklearn.fit_transform corpus) ;;
           set_vectorizer (fst vx) ;;
           set_X (snd vx) ;;
           me <- get_self ;;
           logging (info_trained (List.length (dataset me)))
       end)
    (fun e => logging (exception_failed e)).

(** [path or DEFAULT_QNA_PATH]: no path and the empty path give the
    default. *)
Definition path_or_default (env : environment) (p : option string) : string :=
  match p with
  | Some (String c r) => String c r
  | _ => DEFAULT_QNA_PATH env
  end.

(** The fields as the constructor sets them before loading. *)
Definition unloaded (p : string) : QnAModel :=
  {| path := p; dataset := []; vectorizer := None; X := None |}.

(** [QnAModel(path)]: the path, empty fields, then [_load_and_train]. *)
Definition __init__ (env : environment) (p : option string) : M unit :=
  fun s =>
    _load_and_train env
      {| self := unloaded (path_or_default env p); log := log s |}.

Definition threshold : R := (15 / 100)%R.

Definition get_answer (question : string) : M (option string) :=
  me <- get_self ;;
  match dataset me, vectorizer me, X me with
  | _ :: _, Some v, Some x =>
      let proc := _preprocess_text question in
      qv <- lift (Sklearn.transform v [proc]) ;;
      sims <- lift (Sklearn.cosine_similarity qv x) ;;
      best <- lift (Numpy.argmax (concat sims)) ;;
      score <- lift (Numpy.index2 sims 0 best) ;;
      if Rlt_dec score threshold then ret None
      else
        match nth_error (dataset me) best with
        | Some e => ret (Some (answer e))
        | None => raise IndexError
        end
  | _, _, _ => ret None
  end.

End QnAModel.

(** ** Notions used to state the properties *)

Section Notions.
Context {nltk : Nltk}.
Local Open Scope monad_scope.

(** The normalised questions the index is built from. *)
Definition corpus_of (data : list qa) : list string :=
  map (fun e => _preprocess_text (question e)) data.

(** A model whose index was built from its non-empty corpus. *)
Definition ready (me : QnAModel) : Prop :=
  dataset me <> [] /\
  exists v x,
    vectorizer me = Some v /\ X me = Some x /\
    Sklearn.fit_transform (corpus_of (dataset me)) = Return (v, x).

(** A state left by the constructor. *)
Definition constructed (s : state) : Prop :=
  exists env p s0, s = snd (__init__ env p s0).

(** Asking several questions one after the other. *)
Fixpoint ask_all (questions : list string) : M (list (option string)) :=
  match questions with
  | [] => ret []
  | q :: rest =>
      r <- get_answer q ;;
      rs <- ask_all rest ;;
      ret (r :: rs)
  end.


(** Term frequency: occurrences of the term among the tokens of a
    normalised text. *)
Definition term_frequency (t : string) (doc : string) : nat :=
  count_occ string_dec (Sklearn.analyze doc) t.

(** Document frequency: number of documents that contain the term. *)
Definition doc_frequency (docs : list string) (t : string) : nat :=
  List.length (filter (fun d => existsb (String.eqb t) (Sklearn.analyze d)) docs).

(** Smoothed inverse document frequency, log((1 + N) / (1 + df)) + 1. *)
Definition idf_weight (docs : list string) (t : string) : R :=
  (ln ((1 + INR (List.length docs)) / (1 + INR (doc_frequency docs t))) + 1)%R.

(** The weights of a text over a vocabulary, before normalisation. *)
Definition tfidf_weights (vocab docs : list string) (text : string) : list R :=
  map (fun t => (INR (term_frequency t text) * idf_weight docs t)%R) vocab.

(** The vector of a text: its weights scaled to unit length (left as
    they are when all of them are zero). *)
Definition tfidf_vector (vocab docs : list string) (text : string) : list R :=
  Sklearn.normalize_row (tfidf_weights vocab docs text).

(** The row [transform] computes for one text. *)
Definition transformed_row (vocab : list string) (idf : list R) (text : string) : list R :=
  Sklearn.normalize_row
    (Sklearn.scale_row idf (Sklearn.count_row vocab (Sklearn.analyze text))).

(** The similarities [get_answer] computes for a question: one per row
    of the index. *)
Definition similarities (vocab : list string) (idf : list R) (x : Sklearn.matrix)
    (q : string) : list R :=
  map (fun row =>
         Sklearn.dot
           (Sklearn.normalize_row (transformed_row vocab idf (_preprocess_text q)))
           (Sklearn.normalize_row row))
      x.

(** The index [fit_transform] builds from a corpus: vocabulary, inverse
    document frequencies and one row per entry. *)
Definition index_vocabulary (data : list qa) : list string :=
  Sklearn.learn_vocabulary (corpus_of data).

Definition index_idf (data : list qa) : list R :=
  Sklearn.fit_idf (List.length (index_vocabulary data))
    (Sklearn.count_matrix (index_vocabulary data) (corpus_of data)).

Definition index_rows (data : list qa) : Sklearn.matrix :=
  map (transformed_row (index_vocabulary data) (index_idf data)) (corpus_of data).

(** The vector of a question in the index of a corpus. *)
Definition query_row (data : list qa) (q : string) : list R :=
  transformed_row (index_vocabulary data) (index_idf data) (_preprocess_text q).

(** The similarities of a question to the entries of a corpus. *)
Definition scores (data : list qa) (q : string) : list R :=
  similarities (index_vocabulary data) (index_idf data) (index_rows data) q.

(** The document vector of an entry in the index of a corpus. *)
Definition document_vector (data : list qa) (e : qa) : list R :=
  tfidf_vector (index_vocabulary data) (corpus_of data) (_preprocess_text (question e)).

(** The tokens the vectoriser finds in the normalised text of a question. *)
Definition index_terms (q : string) : list string :=
  Sklearn.analyze (_preprocess_text q).

(** [r] is the first index at which the list is largest. *)
Definition first_max (l : list R) (r : nat) : Prop :=
  r < List.length l /\
  (forall j, j < List.length l -> (nth j l 0 <= nth r l 0)%R) /\
  (forall j, j < r -> (nth j l 0 < nth r l 0)%R).

(** The choice made from the similarities: first index of the maximum,
    refused under the threshold. *)
Definition pick (data : list qa) (sims : list R) : outcome (option string) :=
  obind (Numpy.argmax sims) (fun best =>
    if Rlt_dec (nth best sims 0%R) threshold then Return None
    else match nth_error data best with
         | Some e => Return (Some (answer e))
         | None => Raise IndexError
         end).

(** What the loader makes of one line of the file. *)
Inductive line_entry : string -> list qa -> Prop :=
| entry_blank : forall ln,
    PyStr.strip ln = EmptyString -> line_entry ln []
| entry_no_colon : forall ln,
    PyStr.strip ln <> EmptyString ->
    PyStr.contains colon (PyStr.strip ln) = false ->
    line_entry ln []
| entry_pair : forall ln before after,
    PyStr.strip ln = String.append before (String colon after) ->
    PyStr.contains colon before = false ->
    line_entry ln [{| question := PyStr.strip before; answer := PyStr.strip after |}].

(** What the loop makes of one line that is already stripped. *)
Definition stripped_entry (line : string) (e : list qa) : Prop :=
  (PyStr.contains colon line = false /\ e = []) \/
  (exists before after,
      line = String.append before (String colon after) /\
      PyStr.contains colon before = false /\
      e = [{| question := PyStr.strip before; answer := PyStr.strip after |}]).




End Notions.

(** ** The Porter stemmer

    NLTK's [PorterStemmer] in its default mode, on lower-case words: the
    published algorithm with NLTK's table of irregular forms and its
    changes to steps 1a, 1b, 1c and 2. It is used by the instance below;
    the properties of the matcher hold for any stemmer. *)

Module Porter.

Definition word : Type := list ascii.

Definition is_vowel (c : ascii) : bool :=
  existsb (Ascii.eqb c) (list_ascii_of_string "aeiou").

Definition letter_y : ascii := ascii_of_nat 121.

(** [_is_consonant(word, i)] for every position, left to right: a [y] is
    a consonant at the start and after a vowel. *)
Fixpoint consonants_from (prev : option bool) (w : word) : list bool :=
  match w with
  | [] => []
  | c :: w' =>
      let f := if is_vowel c then false
               else if Ascii.eqb c letter_y
                    then match prev with None => true | Some p => negb p end
                    else true in
      f :: consonants_from (Some f) w'
  end.

Definition consonants (w : word) : list bool := consonants_from None w.

(** Occurrences of a vowel followed by a consonant. *)
Fixpoint count_vc (flags : list bool) : nat :=
  match flags with
  | [] => 0
  | f :: rest =>
      match f, rest with
      | false, true :: _ => S (count_vc rest)
      | _, _ => count_vc rest
      end
  end.

Definition measure (stem : word) : nat := count_vc (consonants stem).

Definition has_positive_measure (stem : word) : bool := 0 <? measure stem.

Definition measure_gt_1 (stem : word) : bool := 1 <? measure stem.

Definition contains_vowel (stem : word) : bool := existsb negb (consonants stem).

Definition last_is (w : word) (cs : string) : bool :=
  match rev w with
  | [] => false
  | c :: _ => existsb (Ascii.eqb c) (list_ascii_of_string cs)
  end.

Definition ends_double_consonant (w : word) : bool :=
  match rev w, rev (consonants w) with
  | c1 :: c2 :: _, f :: _ => Ascii.eqb c1 c2 && f
  | _, _ => false
  end.

Definition ends_cvc (w : word) : bool :=
  match rev (consonants w) with
  | [true; false] => true
  | true :: false :: true :: _ => negb (last_is w "wxy")
  | _ => false
  end.

Definition ends_with (suffix : string) (w : word) : bool :=
  let s := list_ascii_of_string suffix in
  (List.length s <=? List.length w) &&
  if list_eq_dec ascii_dec (skipn (List.length w - List.length s) w) s
  then true else false.

(** The word without its last [n] characters. *)
Definition chop (n : nat) (w : word) : word := firstn (List.length w - n) w.

Definition replace_suffix (w : word) (suffix replacement : string) : word :=
  chop (String.length suffix) w ++ list_ascii_of_string replacement.

Record rule : Type := {
  suffix : string;
  replacement : string;
  condition : word -> bool
}.

Definition always (_ : word) : bool := true.

(** The first rule whose suffix ends the word decides: it is applied if
    its condition holds of the stem, and the word is left as it is
    otherwise. *)
Fixpoint apply_rule_list (w : word) (rules : list rule) : word :=
  match rules with
  | [] => w
  | r :: rest =>
      if ends_with (suffix r) w then
        if condition r (chop (String.length (suffix r)) w)
        then replace_suffix w (suffix r) (replacement r)
        else w
      else apply_rule_list w rest
  end.

Definition step1a (w : word) : word :=
  if ends_with "ies" w && (List.length w =? 4) then replace_suffix w "ies" "ie"
  else apply_rule_list w
         [ {| suffix := "sses"; replacement := "ss"; condition := always |};
           {| suffix := "ies"; replacement := "i"; condition := always |};
           {| suffix := "ss"; replacement := "ss"; condition := always |};
           {| suffix := "s"; replacement := EmptyString; condition := always |} ].

(** The second part of step 1b, on the stem left by [ed] or [ing]. *)
Definition step1b_stem (stem : word) : word :=
  if ends_with "at" stem then stem ++ list_ascii_of_string "e"
  else if ends_with "bl" stem then stem ++ list_ascii_of_string "e"
  else if ends_with "iz" stem then stem ++ list_ascii_of_string "e"
  else if ends_double_consonant stem then
    if last_is stem "lsz" then stem else chop 1 stem
  else if (measure stem =? 1) && ends_cvc stem
       then stem ++ list_ascii_of_string "e"
       else stem.

Definition step1b (w : word) : word :=
  if ends_with "ied" w then
    if List.length w =? 4 then replace_suffix w "ied" "ie"
    else replace_suffix w "ied" "i"
  else if ends_with "eed" w then
    if has_positive_measure (chop 3 w) then replace_suffix w "eed" "ee" else w
  else if ends_with "ed" w && contains_vowel (chop 2 w) then step1b_stem (chop 2 w)
  else if ends_with "ing" w && contains_vowel (chop 3 w) then step1b_stem (chop 3 w)
  else w.

Definition step1c (w : word) : word :=
  apply_rule_list w
    [ {| suffix := "y"; replacement := "i";
         condition := fun stem =>
           (1 <? List.length stem) &&
           match rev (consonants stem) with f :: _ => f | [] => false end |} ].

Definition positive (s r : string) : rule :=
  {| suffix := s; replacement := r; condition := has_positive_measure |}.

Definition step2_rules (w : word) : word :=
  apply_rule_list w
    [ positive "ational" "ate"; positive "tional" "tion"; positive "enci" "ence";
      positive "anci" "ance"; positive "izer" "ize"; positive "bli" "ble";
      positive "alli" "al"; positive "entli" "ent"; positive "eli" "e";
      positive "ousli" "ous"; positive "ization" "ize"; positive "ation" "ate";
      positive "ator" "ate"; positive "alism" "al"; positive "iveness" "ive";
      positive "fulness" "ful"; positive "ousness" "ous"; positive "aliti" "al";
      positive "iviti" "ive"; positive "biliti" "ble"; positive "fulli" "ful";
      {| suffix := "logi"; replacement := "log";
         condition := fun _ => has_positive_measure (chop 3 w) |} ].

(** Step 2: [alli] is tried first and, when it applies, the result goes
    through the rules again (it ends in [al], so once). *)
Definition step2 (w : word) : word :=
  if ends_with "alli" w && has_positive_measure (chop 4 w)
  then step2_rules (replace_suffix w "alli" "al")
  else step2_rules w.

Definition step3 (w : word) : word :=
  apply_rule_list w
    [ positive "icate" "ic"; positive "ative" EmptyString; positive "alize" "al";
      positive "iciti" "ic"; positive "ical" "ic"; positive "ful" EmptyString;
      positive "ness" EmptyString ].

Definition removed (s : string) : rule :=
  {| suffix := s; replacement := EmptyString; condition := measure_gt_1 |}.

Definition step4 (w : word) : word :=
  apply_rule_list w
    [ removed "al"; removed "ance"; removed "ence"; removed "er"; removed "ic";
      removed "able"; removed "ible"; removed "ant"; removed "ement";
      removed "ment"; removed "ent";
      {| suffix := "ion"; replacement := EmptyString;
         condition := fun stem => measure_gt_1 stem && last_is stem "st" |};
      removed "ou"; removed "ism"; removed "ate"; removed "iti"; removed "ous";
      removed "ive"; removed "ize" ].

Definition step5a (w : word) : word :=
  if ends_with "e" w then
    let stem := chop 1 w in
    if measure_gt_1 stem then stem
    else if (measure stem =? 1) && negb (ends_cvc stem) then stem
    else w
  else w.

Definition step5b (w : word) : word :=
  apply_rule_list w
    [ {| suffix := "ll"; replacement := "l";
         condition := fun _ => measure_gt_1 (chop 1 w) |} ].

(** The irregular forms. *)
Definition pool : list (string * string) :=
  [ ("sky", "sky"); ("skies", "sky"); ("dying", "die"); ("lying", "lie");
    ("tying", "tie"); ("news", "news"); ("innings", "inning");
    ("inning", "inning"); ("outings", "outing"); ("outing", "outing");
    ("cannings", "canning"); ("canning", "canning"); ("howe", "howe");
    ("proceed", "proceed"); ("exceed", "exceed"); ("succeed", "succeed") ].

Fixpoint lookup (k : string) (table : list (string * string)) : option string :=
  match table with
  | [] => None
  | (k', v) :: rest => if String.eqb k k' then Some v else lookup k rest
  end.

(** [PorterStemmer().stem(word)] *)
Definition stem (w : string) : string :=
  let lowered := PyStr.lower w in
  match lookup w pool with
  | Some irregular => irregular
  | None =>
      if String.length w <=? 2 then lowered
      else string_of_list_ascii
             (step5b (step5a (step4 (step3 (step2 (step1c (step1b (step1a
                (list_ascii_of_string lowered)))))))))
  end.

End Porter.


(** ** An instance to run the model on

    The stop-word list and the stemmer are NLTK's. The tokeniser cuts at
    blanks and makes a token of every other character that is neither a
    letter nor a digit; on the texts used below (plain words, blanks,
    commas, question and exclamation marks) this is what NLTK's
    [word_tokenize] returns. *)

Module Sample.

(** The run of letters and digits read so far, as a token if not empty. *)
Definition flush (cur : string) : list string :=
  match cur with
  | EmptyString => []
  | _ => [cur]
  end.

Fixpoint simple_tokens (s cur : string) : list string :=
  match s with
  | EmptyString => flush cur
  | String c s' =>
      if PyStr.isalnum_char c
      then simple_tokens s' (String.append cur (String c EmptyString))
      else if PyStr.isspace_char c
      then flush cur ++ simple_tokens s' EmptyString
      else flush cur ++ String c EmptyString :: simple_tokens s' EmptyString
  end.

(** The English stop-word list of the NLTK data. *)
Definition english : list string :=
  ["i"; "me"; "my"; "myself"; "we"; "our"; "ours"; "ourselves"; "you";
   "you're"; "you've"; "you'll"; "you'd"; "your"; "yours"; "yourself";
   "yourselves"; "he"; "him"; "his"; "himself"; "she"; "she's"; "her";
   "hers"; "herself"; "it"; "it's"; "its"; "itself"; "they"; "them";
   "their"; "theirs"; "themselves"; "what"; "which"; "who"; "whom"; "this";
   "that"; "that'll"; "these"; "those"; "am"; "is"; "are"; "was"; "were";
   "be"; "been"; "being"; "have"; "has"; "had"; "having"; "do"; "does";
   "did"; "doing"; "a"; "an"; "the"; "and"; "but"; "if"; "or"; "because";
   "as"; "until"; "while"; "of"; "at"; "by"; "for"; "with"; "about";
   "against"; "between"; "into"; "through"; "during"; "before"; "after";
   "above"; "below"; "to"; "from"; "up"; "down"; "in"; "out"; "on"; "off";
   "over"; "under"; "again"; "further"; "then"; "once"; "here"; "there";
   "when"; "where"; "why"; "how"; "all"; "any"; "both"; "each"; "few";
   "more"; "most"; "other"; "some"; "such"; "no"; "nor"; "not"; "only";
   "own"; "same"; "so"; "than"; "too"; "very"; "s"; "t"; "can"; "will";
   "just"; "don"; "don't"; "should"; "should've"; "now"; "d"; "ll"; "m";
   "o"; "re"; "ve"; "y"; "ain"; "aren"; "aren't"; "couldn"; "couldn't";
   "didn"; "didn't"; "doesn"; "doesn't"; "hadn"; "hadn't"; "hasn";
   "hasn't"; "haven"; "haven't"; "isn"; "isn't"; "ma"; "mightn";
   "mightn't"; "mustn"; "mustn't"; "needn"; "needn't"; "shan"; "shan't";
   "shouldn"; "shouldn't"; "wasn"; "wasn't"; "weren"; "weren't"; "won";
   "won't"; "wouldn"; "wouldn't"].

#[export] Instance nltk : Nltk := {|
  word_tokenize := fun s => simple_tokens s EmptyString;
  stop_words := english;
  stem := Porter.stem
|}.

Definition line_feed : string := String PyStr.newline EmptyString.

(** The corpus of the scenario in two lines. *)
Definition corpus_text : string :=
  String.append "who are you: I am the assistant."
    (String.append line_feed "what time is it: Check your clock.").

Definition qna_path : string := "qna_dat.txt".

Definition one_file (content : file) : environment :=
  {| DEFAULT_QNA_PATH := qna_path;
     files := fun p => if String.eqb p qna_path then content else NoFile |}.

Definition fresh : state :=
  {| self := {| path := EmptyString; dataset := []; vectorizer := None; X := None |};
     log := [] |}.

Definition who_entry : qa :=
  {| question := "who are you"; answer := "I am the assistant." |}.

Definition time_entry : qa :=
  {| question := "what time is it"; answer := "Check your clock." |}.


(** A file of two lines without any colon, and a blank one. *)
Definition no_colon_text : string :=
  String.append "hello world"
    (String.append line_feed (String.append "   " (String.append line_feed "good bye"))).

(** A line whose answer holds a colon. *)
Definition clock_text : string := "what time is it: it is 10:30".

(** The state of a model constructed over the scenario's corpus. *)
Definition scenario : state := snd (__init__ (one_file (Text corpus_text)) None fresh).

End Sample.

(** ** The stand-alone script (Traning_Model/model.py)

    An earlier version of the matcher, run on its own and not imported by
    the assistant: it loads and trains at every call, splits a line at
    every colon, and has no threshold. *)

Module TrainingScript.
Section Script.
Context {nltk : Nltk}.

(** [[line.strip().split(':') for line in lines if ':' in line]] *)
Definition qna_pairs (lines : list string) : list (list string) :=
  map (fun line => PyStr.split colon (PyStr.strip line))
    (filter (PyStr.contains colon) lines).

(** [[{'question': q, 'answer': a} for q, a in qna_pairs]] *)
Fixpoint unpack_pairs (parts : list (list string)) : outcome (list qa) :=
  match parts with
  | [] => Return []
  | p :: rest =>
      obind (PyStr.unpack2 p) (fun qa_ =>
        obind (unpack_pairs rest) (fun ds =>
          Return ({| question := fst qa_; answer := snd qa_ |} :: ds)))
  end.

Definition load_dataset (env : environment) (file_path : string) : outcome (list qa) :=
  obind (open_lines env file_path) (fun lines => unpack_pairs (qna_pairs lines)).

Definition preprocess_text (text : string) : string := _preprocess_text text.


Definition get_answer (question : string) (vectorizer : Sklearn.TfidfVectorizer)
    (x : Sklearn.matrix) (dataset : list qa) : outcome string :=
  let processed_q := preprocess_text question in
  obind (Sklearn.transform vectorizer [processed_q]) (fun question_vec =>
    obind (Sklearn.cosine_similarity question_vec x) (fun similarities =>
      obind (Numpy.argmax (concat similarities)) (fun best_match_index =>
        match nth_error dataset best_match_index with
        | Some e => Return (answer e)
        | None => Raise IndexError
        end))).



End Script.
End TrainingScript.


(** ** The corpus file, as one writes it

    One entry per line, the question, a colon, the answer. *)

Section CorpusFile.





End CorpusFile.


(** ** The shape of a vocabulary term *)




(** * The assistant (main.py, class IshaAssistant)

    The assistant around the matcher: command processing, the HTTP
    handler, the microphone and the connectivity probe.

    Conventions of this part.
    - What lies outside the program (speech engine, microphone, console,
      browser, launcher, sockets, clock, disk) is a [world]: one value per
      call of a method, holding what each external call answers during
      that call. An external call that raises is [failed] with the text of
      the exception.
    - Every call the program makes outwards is recorded in a trace of
      [event]s, in program order. [speak] is recorded when it is called;
      the thread that utters the text is not followed, and neither is the
      thread that serves HTTP: the handler is given the request as
      [urlparse] and [parse_qs] return it, and the connection accepts
      what is sent.
    - The threads of the program are taken one method call at a time. *)

(** ** External calls *)

(** The answer of an external call that may raise. *)
Inductive attempt (A : Type) : Type :=
| done (a : A)
| failed (message : string).

Arguments done {A} a.
Arguments failed {A} message.

(** ** More of Python [str] *)

Module PyText.

(** [s.startswith(prefix)] *)
Fixpoint startswith (prefix s : string) : bool :=
  match prefix, s with
  | EmptyString, _ => true
  | String _ _, EmptyString => false
  | String a p, String b s' => Ascii.eqb a b && startswith p s'
  end.

(** [s[n:]] *)
Fixpoint slice_from (n : nat) (s : string) : string :=
  match n, s with
  | O, _ => s
  | S _, EmptyString => EmptyString
  | S n', String _ s' => slice_from n' s'
  end.

(** [needle in s] *)
Fixpoint substring_in (needle s : string) : bool :=
  match s with
  | EmptyString => startswith needle EmptyString
  | String _ s' => startswith needle s || substring_in needle s'
  end.

Definition word_of (cur : string) : list string :=
  match cur with
  | EmptyString => []
  | _ => [cur]
  end.

Fixpoint split_runs (s cur : string) : list string :=
  match s with
  | EmptyString => word_of cur
  | String c s' =>
      if PyStr.isspace_char c then word_of cur ++ split_runs s' EmptyString
      else split_runs s' (String.append cur (String c EmptyString))
  end.

(** [s.split()]: the runs of characters that are not white space. *)
Definition split_whitespace (s : string) : list string := split_runs s EmptyString.

(** [str(n)] for a natural number. *)
Definition str_nat (n : nat) : string := NilEmpty.string_of_uint (Nat.to_uint n).

End PyText.

Module Isha.

Local Infix "+++" := String.append (at level 60, right associativity).

(** ** The world and the trace *)

(** [sr.Microphone(device_index=...)] *)
Record Microphone : Type := { device_index : option nat }.

(** A voice of the speech engine: [v.id] and [v.name] ([None] when the
    name is missing). *)
Record voice : Type := { id : string; name : option string }.

(** What one round of listening and recognising comes to. *)
Inductive capture : Type :=
| heard (text : string)
| unknown_value
| request_error (message : string)
| capture_failed (message : string).

Inductive level : Type := INFO | WARNING | ERROR.

Inductive thread : Type := listen_loop_thread | hotkey_thread | server_thread.

Inductive event : Type :=
| say (text : string)
| logged (l : level) (message : string)
| printed (line : string)
| browser_opened (url : string)
| file_started (target : string)
| process_spawned (argv : list string)
| connection_tried (host : string) (port : nat)
| voice_set (voice_id : string)
| thread_started (t : thread)
| file_written (path content : string)
| response_sent (code : nat)
| header_sent (keyword value : string)
| headers_ended
| body_written (bytes : string).

Record world : Type := {
  platform : string;
  KEYBOARD_AVAILABLE : bool;
  time : R;
  hour : nat;
  strftime : string -> string;
  env : environment;
  dashboard_file : string;
  write_file : string -> string -> attempt unit;
  webbrowser_open : string -> attempt unit;
  startfile : string -> attempt unit;
  popen : list string -> attempt unit;
  create_connection : string -> nat -> attempt unit;
  pyttsx3_init : attempt unit;
  voices : attempt (list voice);
  set_voice : string -> attempt unit;
  list_microphone_names : attempt (list string);
  open_microphone : option nat -> attempt unit;
  calibrate : Microphone -> attempt unit;
  read_index : attempt Z;
  listen_and_recognize : Microphone -> capture
}.

(** ** The object and the machine *)

Record IshaAssistant : Type := {
  microphone : option Microphone;
  is_listening : bool;
  last_internet_check : R;
  internet_status : bool;
  internet_check_interval : R;
  input_queue : list string;
  pending : option string;
  host : string;
  port : Z;
  _is_windows : bool
}.

(** The assistant, its matcher with the records the matcher logged, and
    the trace. *)
Record machine : Type := {
  assistant : IshaAssistant;
  brain : state;
  trace : list event
}.

Definition IO (A : Type) : Type := machine -> outcome A * machine.

Definition pure {A : Type} (a : A) : IO A := fun m => (Return a, m).

Definition and_then {A B : Type} (f : IO A) (k : A -> IO B) : IO B :=
  fun m =>
    match f m with
    | (Return a, m') => k a m'
    | (Raise e, m') => (Raise e, m')
    end.

Declare Scope io_scope.
Delimit Scope io_scope with io.
Notation "x <- f ;; k" := (and_then f (fun x => k))
  (at level 61, f at next level, right associativity) : io_scope.
Notation "f ;; k" := (and_then f (fun _ => k))
  (at level 61, right associativity) : io_scope.
Local Open Scope io_scope.

Definition occur (e : event) : IO unit :=
  fun m => (Return tt,
            {| assistant := assistant m; brain := brain m; trace := trace m ++ [e] |}).

Definition get_assistant : IO IshaAssistant := fun m => (Return (assistant m), m).

Definition set_assistant (a : IshaAssistant) : IO unit :=
  fun m => (Return tt, {| assistant := a; brain := brain m; trace := trace m |}).

Definition set_microphone (mic : option Microphone) : IO unit :=
  a <- get_assistant ;;
  set_assistant
    {| microphone := mic; is_listening := is_listening a;
       last_internet_check := last_internet_check a;
       internet_status := internet_status a;
       internet_check_interval := internet_check_interval a;
       input_queue := input_queue a; pending := pending a;
       host := host a; port := port a; _is_windows := _is_windows a |}.

Definition set_is_listening (b : bool) : IO unit :=
  a <- get_assistant ;;
  set_assistant
    {| microphone := microphone a; is_listening := b;
       last_internet_check := last_internet_check a;
       internet_status := internet_status a;
       internet_check_interval := internet_check_interval a;
       input_queue := input_queue a; pending := pending a;
       host := host a; port := port a; _is_windows := _is_windows a |}.

Definition set_last_internet_check (t : R) : IO unit :=
  a <- get_assistant ;;
  set_assistant
    {| microphone := microphone a; is_listening := is_listening a;
       last_internet_check := t;
       internet_status := internet_status a;
       internet_check_interval := internet_check_interval a;
       input_queue := input_queue a; pending := pending a;
       host := host a; port := port a; _is_windows := _is_windows a |}.

Definition set_internet_status (b : bool) : IO unit :=
  a <- get_assistant ;;
  set_assistant
    {| microphone := microphone a; is_listening := is_listening a;
       last_internet_check := last_internet_check a;
       internet_status := b;
       internet_check_interval := internet_check_interval a;
       input_queue := input_queue a; pending := pending a;
       host := host a; port := port a; _is_windows := _is_windows a |}.

(** [self.input_queue.put(item)] *)
Definition queue_put (item : string) : IO unit :=
  a <- get_assistant ;;
  set_assistant
    {| microphone := microphone a; is_listening := is_listening a;
       last_internet_check := last_internet_check a;
       internet_status := internet_status a;
       internet_check_interval := internet_check_interval a;
       input_queue := input_queue a ++ [item]; pending := pending a;
       host := host a; port := port a; _is_windows := _is_windows a |}.

Definition logging_info (message : string) : IO unit := occur (logged INFO message).
Definition logging_warning (message : string) : IO unit := occur (logged WARNING message).
Definition logging_error (message : string) : IO unit := occur (logged ERROR message).
Definition logging_exception (message : string) : IO unit := occur (logged ERROR message).
Definition print (line : string) : IO unit := occur (printed line).

Section Assistant.
Context {nltk : Nltk}.

(** The text of the dashboard page (lines 378 to 427). *)
Variable html : string.

(** [self.qna.get_answer(question)] *)
Definition qna_get_answer (question : string) : IO (option string) :=
  fun m =>
    let r := get_answer question (brain m) in
    (fst r, {| assistant := assistant m; brain := snd r; trace := trace m |}).

(** ** Speech *)

Definition is_female (v : voice) : bool :=
  let name := match name v with Some n => n | None => EmptyString end in
  PyText.substring_in "zira" (PyStr.lower name) || PyText.substring_in "female" (PyStr.lower name).

Definition set_female_voice (w : world) : IO unit :=
  match voices w with
  | failed e => logging_exception ("Failed to set voice: " +++ e)
  | done vs =>
      let chosen :=
        match find is_female vs with
        | Some v => Some v
        | None => hd_error vs
        end in
      match chosen with
      | Some v =>
          occur (voice_set (id v)) ;;
          match set_voice w (id v) with
          | failed e => logging_exception ("Failed to set voice: " +++ e)
          | done _ =>
              logging_info ("TTS voice set: " +++
                            match name v with Some n => n | None => "None" end)
          end
      | None => logging_warning "No TTS voice available."
      end
  end.

Definition speak (text : string) : IO unit := occur (say text).

(** ** Utilities *)

Fixpoint probe (w : world) (targets : list (string * nat)) : IO bool :=
  match targets with
  | [] => set_internet_status false ;; pure false
  | (host, port) :: rest =>
      occur (connection_tried host port) ;;
      match create_connection w host port with
      | done _ => set_internet_status true ;; pure true
      | failed _ => probe w rest
      end
  end.

Definition check_internet (w : world) : IO bool :=
  a <- get_assistant ;;
  let now := time w in
  if Rlt_dec (now - last_internet_check a) (internet_check_interval a)
  then pure (internet_status a)
  else
    set_last_internet_check now ;;
    probe w [("8.8.8.8", 53); ("1.1.1.1", 53)].

Definition greeting (hour : nat) : string :=
  if (5 <=? hour) && (hour <? 12) then "Good morning"
  else if (12 <=? hour) && (hour <? 17) then "Good afternoon"
  else if (17 <=? hour) && (hour <? 21) then "Good evening"
  else "Hello".

Definition wish_me (w : world) : IO unit :=
  speak (greeting (hour w) +++ ". I am Isha — your assistant.").

(** ** Microphone and voice *)

Fixpoint print_names (i : nat) (names : list string) : IO unit :=
  match names with
  | [] => pure tt
  | n :: rest => print (PyText.str_nat i +++ ": " +++ n) ;; print_names (S i) rest
  end.

Definition selection_failed (e : string) : IO (option Microphone) :=
  logging_warning ("Microphone selection failed: " +++ e) ;;
  speak "Invalid selection." ;;
  pure None.

Definition select_microphone (w : world) : IO (option Microphone) :=
  let names :=
    match list_microphone_names w with
    | done ns => ns
    | failed _ => []
    end in
  match names with
  | [] =>
      speak "No microphones detected. Please install PyAudio or check device permissions." ;;
      pure None
  | _ :: _ =>
      print "Available microphones:" ;;
      print_names 0 names ;;
      print "Enter index of microphone to use: " ;;
      match read_index w with
      | failed e => selection_failed e
      | done idx =>
          if ((0 <=? idx)%Z && (idx <? Z.of_nat (List.length names))%Z)%bool then
            match open_microphone w (Some (Z.to_nat idx)) with
            | failed e => selection_failed e
            | done _ =>
                let mic := {| device_index := Some (Z.to_nat idx) |} in
                set_microphone (Some mic) ;;
                match calibrate w mic with
                | failed e => selection_failed e
                | done _ =>
                    speak ("Selected microphone: " +++ nth (Z.to_nat idx) names EmptyString) ;;
                    a <- get_assistant ;;
                    pure (microphone a)
                end
            end
          else pure None
      end
  end.

(** The switch of [toggle_voice], once a microphone is there. *)
Definition switch_listening : IO string :=
  a <- get_assistant ;;
  set_is_listening (negb (is_listening a)) ;;
  a <- get_assistant ;;
  (if is_listening a then
     speak "Microphone is on." ;;
     occur (thread_started listen_loop_thread)
   else speak "Microphone is off.") ;;
  pure "ok".

Definition toggle_voice (w : world) : IO string :=
  a <- get_assistant ;;
  match microphone a with
  | None =>
      select_microphone w ;;
      a <- get_assistant ;;
      match microphone a with
      | None => pure "no-mic"
      | Some _ => switch_listening
      end
  | Some _ => switch_listening
  end.

Definition listen_once (w : world) : IO (option string) :=
  a <- get_assistant ;;
  match microphone a with
  | None => pure None
  | Some mic =>
      match listen_and_recognize w mic with
      | heard text =>
          let q := PyStr.lower text in
          logging_info ("Heard: " +++ q) ;;
          pure (Some q)
      | unknown_value => logging_info "Could not understand audio" ;; pure None
      | request_error e => logging_error ("Speech service error: " +++ e) ;; pure None
      | capture_failed e => logging_exception ("Listening failed: " +++ e) ;; pure None
      end
  end.

(** ** Command processing *)

Definition reply (resp : string) : IO string := speak resp ;; pure resp.

Definition identity_reply : string := "मैं इशा हूँ, तुम्हारा पर्सनल असिस्टेंट!".

Definition process_command (w : world) (command : string) : IO string :=
  if negb (PyStr.truthy command) then reply "No command received."
  else
    let cmd := PyStr.strip (PyStr.lower command) in
    logging_info ("Processing command: " +++ cmd) ;;
    if PyText.startswith "open " cmd then
      let target := PyStr.strip (PyText.slice_from 5 cmd) in
      if PyText.startswith "http" target then
        occur (browser_opened target) ;;
        match webbrowser_open w target with
        | done _ => reply ("Opening " +++ target)
        | failed e => reply ("Failed to open URL: " +++ e)
        end
      else
        launched <-
          (if PyText.startswith "win" (platform w) then
             occur (file_started target) ;; pure (startfile w target)
           else
             occur (process_spawned ["xdg-open"; target]) ;;
             pure (popen w ["xdg-open"; target])) ;;
        match launched with
        | done _ => reply ("Attempting to open " +++ target)
        | failed e => reply ("Could not open " +++ target +++ ": " +++ e)
        end
    else if PyText.substring_in "time" cmd
            && (List.length (PyText.split_whitespace cmd) <=? 3) then
      reply ("The time is " +++ strftime w "%I:%M %p")
    else if PyText.substring_in "date" cmd
            && (List.length (PyText.split_whitespace cmd) <=? 3) then
      reply ("Today's date is " +++ strftime w "%B %d, %Y")
    else if PyText.substring_in "who are you" cmd || PyText.substring_in "your name" cmd then
      reply identity_reply
    else
      ans <- qna_get_answer cmd ;;
      match ans with
      | Some a =>
          if PyStr.truthy a then reply a
          else reply ("I didn't find a specific answer. You said: " +++ command)
      | None => reply ("I didn't find a specific answer. You said: " +++ command)
      end.

(** [_listen_loop], as far as the worlds given go: one world per turn of
    the loop. *)
Fixpoint _listen_loop (ws : list world) : IO unit :=
  match ws with
  | [] => pure tt
  | w :: rest =>
      a <- get_assistant ;;
      if is_listening a then
        cmd <- listen_once w ;;
        match cmd with
        | Some (String c r) => process_command w (String c r) ;; _listen_loop rest
        | _ => _listen_loop rest
        end
      else pure tt
  end.

(** ** Dashboard and server *)

Definition _create_dashboard_file (w : world) : IO unit :=
  let fn := dashboard_file w in
  occur (file_written fn html) ;;
  match write_file w fn html with
  | done _ => logging_info ("Dashboard written to " +++ fn)
  | failed e => logging_exception ("Failed to write dashboard.html: " +++ e)
  end.

(** A request, as [urlparse] and [parse_qs] give it: the path, and for
    every key of the query its values, of which there is at least one. *)
Record request : Type := {
  parsed_path : string;
  query : list (string * (string * list string))
}.

(** [qs.get(key, [None])[0]] *)
Fixpoint qs_get_first (key : string) (qs : list (string * (string * list string)))
  : option string :=
  match qs with
  | [] => None
  | (k, (v, _)) :: rest => if String.eqb k key then Some v else qs_get_first key rest
  end.

Fixpoint send_headers (headers : list (string * string)) : IO unit :=
  match headers with
  | [] => pure tt
  | (keyword, value) :: rest => occur (header_sent keyword value) ;; send_headers rest
  end.

(** [send_response], [send_header] for each header, [end_headers] and
    [wfile.write]. *)
Definition respond (code : nat) (headers : list (string * string)) (body : string) : IO unit :=
  occur (response_sent code) ;;
  send_headers headers ;;
  occur headers_ended ;;
  occur (body_written body).

Definition do_GET (w : world) (r : request) : IO unit :=
  if String.eqb (parsed_path r) "/" then
    match files (env w) (dashboard_file w) with
    | Text content => respond 200 [("Content-type", "text/html; charset=utf-8")] content
    | _ => respond 500 [] "Error serving dashboard."
    end
  else if String.eqb (parsed_path r) "/command" then
    match qs_get_first "cmd" (query r) with
    | Some (String c rest) =>
        let cmd := String c rest in
        a <- get_assistant ;;
        match pending a with
        | Some (String _ _) =>
            queue_put cmd ;;
            respond 200 [] "Queued input"
        | _ =>
            fun m =>
              match process_command w cmd m with
              | (Return resp, m') =>
                  respond 200 [("Content-type", "text/plain; charset=utf-8")] resp m'
              | (Raise _, m') => respond 500 [] "Processing error." m'
              end
        end
    | _ => respond 400 [] "Missing cmd param."
    end
  else if String.eqb (parsed_path r) "/voice" then
    res <- toggle_voice w ;;
    respond 200 [] res
  else
    occur (response_sent 404) ;; occur headers_ended.

Definition _start_server_thread : IO unit := occur (thread_started server_thread).

(** ** Construction *)

Definition init_microphone (w : world) : IO unit :=
  match list_microphone_names w with
  | failed e =>
      logging_warning ("Microphone list error (likely PyAudio missing): " +++ e) ;;
      set_microphone None
  | done [] => set_microphone None
  | done (_ :: _) =>
      match open_microphone w None with
      | failed e =>
          logging_warning ("Could not initialize default microphone: " +++ e) ;;
          set_microphone None
      | done _ =>
          let mic := {| device_index := None |} in
          set_microphone (Some mic) ;;
          match calibrate w mic with
          | done _ => logging_info "Default microphone initialized."
          | failed e =>
              logging_warning ("Could not initialize default microphone: " +++ e) ;;
              set_microphone None
          end
      end
  end.

(** The fields as the constructor sets them, the matcher constructed. *)
Definition new_assistant (w : world) (host : string) (port : Z) : IshaAssistant :=
  {| microphone := None; is_listening := false;
     last_internet_check := 0%R; internet_status := false;
     internet_check_interval := 10%R;
     input_queue := []; pending := None;
     host := host; port := port;
     _is_windows := PyText.startswith "win" (platform w) |}.

(** [QnAModel()], the log file empty before. *)
Definition new_matcher (w : world) : outcome unit * state :=
  __init__ (env w) None {| self := unloaded EmptyString; log := [] |}.

Inductive construction : Type :=
| constructed_assistant (m : machine)
| engine_error (message : string)
| matcher_error (e : exn).

(** [IshaAssistant(host, port)], the log file empty before. *)
Definition __init__ (w : world) (host : string) (port : Z) : construction :=
  match pyttsx3_init w with
  | failed e => engine_error e
  | done _ =>
      let q := new_matcher w in
      match fst q with
      | Raise e => matcher_error e
      | Return _ =>
          let m0 := {| assistant := new_assistant w host port; brain := snd q; trace := [] |} in
          constructed_assistant
            (snd ((init_microphone w ;;
                   set_female_voice w ;;
                   (if KEYBOARD_AVAILABLE w then occur (thread_started hotkey_thread)
                    else pure tt) ;;
                   wish_me w ;;
                   _create_dashboard_file w ;;
                   _start_server_thread) m0))
      end
  end.

(** ** The running assistant *)

(** What the threads do, one method call at a time: the server handles a
    request, the hotkey thread toggles the voice, a listening thread turns
    its loop. *)
Inductive action : Type :=
| http_get (r : request)
| hotkey
| listening (ws : list world).

Definition perform (w : world) (a : action) : IO unit :=
  match a with
  | http_get r => do_GET w r
  | hotkey => toggle_voice w ;; pure tt
  | listening ws => _listen_loop ws
  end.

(** The machines a run of method calls leads to. *)
Inductive run (m0 : machine) : machine -> Prop :=
| run_start : run m0 m0
| run_step : forall m w a, run m0 m -> run m0 (snd (perform w a m)).


(** ** Notions used to state the properties of the assistant *)

(** A target handed to the browser or the launcher: not empty, without
    white space around it, without upper-case letters. *)
Definition tidy (target : string) : bool :=
  PyStr.truthy target &&
  String.eqb (PyStr.strip target) target &&
  String.eqb (PyStr.lower target) target.

(** What [process_command] may do before it speaks: write to the log,
    and hand a tidy target to the browser or to the launcher. *)
Definition command_event (e : event) : bool :=
  match e with
  | logged _ _ => true
  | browser_opened url => tidy url
  | file_started target => tidy target
  | process_spawned [program; target] => String.eqb program "xdg-open" && tidy target
  | _ => false
  end.

Definition is_say (e : event) : bool :=
  match e with
  | say _ => true
  | _ => false
  end.

Definition is_connection (e : event) : bool :=
  match e with
  | connection_tried _ _ => true
  | _ => false
  end.

(** The fields no method assigns once the assistant is constructed. *)
Definition same_settings (a a' : IshaAssistant) : Prop :=
  last_internet_check a' = last_internet_check a /\
  internet_status a' = internet_status a /\
  internet_check_interval a' = internet_check_interval a /\
  input_queue a' = input_queue a /\
  pending a' = pending a /\
  host a' = host a /\
  port a' = port a /\
  _is_windows a' = _is_windows a.

(** What a method call leaves as it was: the matcher and the settings;
    the trace only grows. *)
Definition frame (m m' : machine) : Prop :=
  brain m' = brain m /\
  same_settings (assistant m) (assistant m') /\
  exists evs, trace m' = trace m ++ evs.

(** What holds of the assistant between two method calls. *)
Definition steady (m : machine) : Prop :=
  pending (assistant m) = None /\
  input_queue (assistant m) = [] /\
  last_internet_check (assistant m) = 0%R /\
  internet_status (assistant m) = false /\
  (is_listening (assistant m) = true -> microphone (assistant m) <> None) /\
  constructed (brain m).

(** The events of one response: status line, headers, body. *)
Definition response (code : nat) (headers : list (string * string)) (body : string)
  : list event :=
  response_sent code ::
  map (fun kv => header_sent (fst kv) (snd kv)) headers ++
  [headers_ended; body_written body].

(** The machine with more events in its trace. *)
Definition traced (m : machine) (evs : list event) : machine :=
  {| assistant := assistant m; brain := brain m; trace := trace m ++ evs |}.

End Assistant.
End Isha.

(** * The voice of the script (Head/Mouth.py)

    [edge_tts], [pygame] and the file system are a [backend]; the scene
    is the set of paths that exist and what was printed. *)

Module Mouth.

Local Infix "+++" := String.append (at level 60, right associativity).

(** What [tts.save] comes to: the file written, or an exception, with or
    without a file left behind. *)
Inductive saving : Type :=
| saved
| save_failed (message : string) (file_left : bool).

Record backend : Type := {
  Communicate : string -> string -> attempt unit;
  save : string -> saving;
  thread_start : attempt unit;
  pygame_play : string -> attempt unit;
  os_remove : string -> attempt unit
}.

Record scene : Type := {
  os_path_exists : string -> bool;
  printed : list string
}.

Definition VOICE : string := "en-AU-WilliamNeural".

Definition print (line : string) (s : scene) : scene :=
  {| os_path_exists := os_path_exists s; printed := printed s ++ [line] |}.

Definition create (p : string) (s : scene) : scene :=
  {| os_path_exists := fun q => if String.eqb q p then true else os_path_exists s q;
     printed := printed s |}.

Definition delete (p : string) (s : scene) : scene :=
  {| os_path_exists := fun q => if String.eqb q p then false else os_path_exists s q;
     printed := printed s |}.

Definition remove_file (w : backend) (file_path : string) (s : scene) : scene :=
  if os_path_exists s file_path then
    match os_remove w file_path with
    | done _ => delete file_path s
    | failed e => print ("Error removing file: " +++ e) s
    end
  else s.

(** [play_audio]: initialising, loading, playing and waiting for the end
    are one answer of the backend. *)
Definition play_audio (w : backend) (file_path : string) (s : scene) : scene :=
  match pygame_play w file_path with
  | done _ => s
  | failed e => print ("Audio error : " +++ e) s
  end.

Definition amain (w : backend) (TEXT output_file : string) (s : scene) : scene :=
  let tried :=
    match Communicate w TEXT VOICE with
    | failed e => print ("TTS error : " +++ e) s
    | done _ =>
        match save w output_file with
        | save_failed e remains =>
            print ("TTS error : " +++ e) (if remains then create output_file s else s)
        | saved =>
            let s1 := create output_file s in
            match thread_start w with
            | failed e => print ("TTS error : " +++ e) s1
            | done _ => play_audio w output_file s1
            end
        end
    end in
  remove_file w output_file tried.

(** [speak(TEXT, output_file)]; [default_file] is [os.getcwd()] joined with
    the name of the default file. *)
Definition speak (w : backend) (default_file : string) (TEXT : string)
    (output_file : option string) (s : scene) : scene :=
  match output_file with
  | None => amain w TEXT default_file s
  | Some f => amain w TEXT f s
  end.

End Mouth.


(** * A world to run the assistant in *)

Module Desk.
Import Isha Sample.

(** A page standing for the dashboard. *)
Definition html : string := "<!doctype html>".

Definition zira : voice := {| id := "zira"; name := Some "Microsoft Zira Desktop" |}.

Definition clock (format : string) : string :=
  if String.eqb format "%I:%M %p" then "09:05 AM" else "November 03, 2026".

(** A Linux desk with two microphones and no network, at a given time,
    with a given answer at the console and a given calibration. *)
Definition desk (now : R) (typed : attempt Z) (calibration : attempt unit) : world :=
  {| platform := "linux";
     KEYBOARD_AVAILABLE := false;
     time := now;
     hour := 9;
     strftime := clock;
     env := one_file (Text corpus_text);
     dashboard_file := "dashboard.html";
     write_file := fun _ _ => done tt;
     webbrowser_open := fun _ => done tt;
     startfile := fun _ => failed "not supported";
     popen := fun _ => done tt;
     create_connection := fun _ _ => failed "timed out";
     pyttsx3_init := done tt;
     voices := done [zira];
     set_voice := fun _ => done tt;
     list_microphone_names := done ["Built-in"; "USB"];
     open_microphone := fun _ => done tt;
     calibrate := fun _ => calibration;
     read_index := typed;
     listen_and_recognize := fun _ => unknown_value |}.

Definition morning : world := desk 100%R (done 1%Z) (failed "stream closed").

(** The assistant constructed on the scenario corpus, no microphone
    set. *)
Definition seated : machine :=
  {| assistant := new_assistant morning "localhost" 8000%Z;
     brain := scenario;
     trace := [] |}.




End Desk.

Module Studio.

(** A world where synthesis fails and the file cannot be removed. *)
Definition jammed : Mouth.backend :=
  {| Mouth.Communicate := fun _ _ => failed "no voice";
     Mouth.save := fun _ => Mouth.saved;
     Mouth.thread_start := done tt;
     Mouth.pygame_play := fun _ => done tt;
     Mouth.os_remove := fun _ => failed "permission denied" |}.

Definition disk (files : list string) : Mouth.scene :=
  {| Mouth.os_path_exists := fun p => existsb (String.eqb p) files;
     Mouth.printed := [] |}.

End Studio.

(** * Properties *)

(** ** Strings *)

Section StringFacts.
Import PyStr.

Lemma split1_found (c : ascii) (s : string) :
  contains c s = true ->
  exists before after,
    split1 c s = [before; after] /\
    s = String.append before (String c after) /\
    contains c before = false.
Proof.
  induction s as [|d s IH]; simpl; intro Hc; [discriminate|].
  destruct (Ascii.eqb d c) eqn:E.
  - apply Ascii.eqb_eq in E; subst d.
    exists EmptyString, s. repeat split; reflexivity.
  - simpl in Hc. destruct (IH Hc) as (b & a & Hs & Heq & Hb).
    rewrite Hs. exists (String d b), a. simpl.
    rewrite E, Hb, <- Heq. repeat split; reflexivity.
Qed.

Lemma split1_absent (c : ascii) (s : string) :
  contains c s = false -> split1 c s = [s].
Proof.
  induction s as [|d s IH]; simpl; intro Hc; [reflexivity|].
  apply orb_false_iff in Hc as [E Hc].
  rewrite E, (IH Hc). reflexivity.
Qed.

Lemma truthy_false (s : string) : truthy s = false <-> s = EmptyString.
Proof. destruct s; simpl; split; congruence. Qed.

End StringFacts.

(** ** The corpus loader *)

Section Loader.
Context {nltk : Nltk}.
Import PyStr.

Lemma parse_lines_entries (lines : list string) :
  forall pairs,
  exists entries,
    Forall2 stripped_entry lines entries /\
    parse_lines lines pairs = Return (pairs ++ concat entries).
Proof.
  induction lines as [|line rest IH]; intro pairs; simpl.
  - exists []. split; [constructor | now rewrite app_nil_r].
  - destruct (contains colon line) eqn:Hc.
    + destruct (split1_found _ _ Hc) as (b & a & Hs & Hl & Hb).
      rewrite Hs. simpl.
      destruct (IH (pairs ++ [{| question := strip b; answer := strip a |}]))
        as (ents & HF & Hp).
      exists ([{| question := strip b; answer := strip a |}] :: ents). split.
      * constructor; [right; exists b, a; auto | exact HF].
      * rewrite Hp. simpl. now rewrite <- app_assoc.
    + destruct (IH pairs) as (ents & HF & Hp).
      exists ([] :: ents). split.
      * constructor; [left; auto | exact HF].
      * exact Hp.
Qed.

Lemma stripped_lines_entries (f : list string) :
  forall stripped_ents,
    Forall2 stripped_entry (stripped_lines f) stripped_ents ->
    exists entries,
      Forall2 line_entry f entries /\ concat entries = concat stripped_ents.
Proof.
  unfold stripped_lines.
  induction f as [|ln f IH]; simpl; intros ents HF.
  - inversion HF; subst. exists []. split; constructor.
  - destruct (truthy (strip ln)) eqn:Ht.
    + simpl in HF. inversion HF as [|l e ls es He HF']; subst.
      destruct (IH _ HF') as (entries & HL & Hc).
      exists (e :: entries). split; [|simpl; now rewrite Hc].
      constructor; [|exact HL].
      assert (Hne : strip ln <> EmptyString)
        by (intro Hz; rewrite Hz in Ht; discriminate).
      destruct He as [[Hn ->] | (b & a & Hl & Hb & ->)].
      * now apply entry_no_colon.
      * now apply entry_pair.
    + apply truthy_false in Ht.
      destruct (IH _ HF) as (entries & HL & Hc).
      exists ([] :: entries). split; [|exact Hc].
      constructor; [now apply entry_blank | exact HL].
Qed.






(** The parse of a file never raises, and its result is the entries of
    the lines in file order. *)
Lemma parse_file (f : list string) :
  exists entries,
    Forall2 line_entry f entries /\
    parse_lines (stripped_lines f) [] = Return (concat entries).
Proof.
  destruct (parse_lines_entries (stripped_lines f) []) as (sents & HF & Hp).
  destruct (stripped_lines_entries f sents HF) as (entries & HL & Hc).
  exists entries. split; [exact HL|]. now rewrite Hp, Hc.
Qed.

End Loader.

(** ** Construction of the model *)

Section Construction.
Context {nltk : Nltk}.
Import PyStr.

Ltac run_monad :=
  unfold __init__, _load_and_train, try_except, bind, get_self, lift,
    logging, set_dataset, set_vectorizer, set_X, ret, raise; simpl.

Lemma init_no_file env p s0 :
  files env (path_or_default env p) = NoFile ->
  __init__ env p s0 =
    (Return tt,
     {| self := unloaded (path_or_default env p);
        log := log s0 ++ [warning_not_found (path_or_default env p)] |}).
Proof.
  intro Hf. run_monad. unfold isfile. simpl. rewrite Hf. reflexivity.
Qed.

Lemma init_unreadable env p s0 e :
  files env (path_or_default env p) = Unreadable e ->
  __init__ env p s0 =
    (Return tt,
     {| self := unloaded (path_or_default env p);
        log := log s0 ++ [exception_failed e] |}).
Proof.
  intro Hf. run_monad. unfold isfile, open_lines. simpl. rewrite Hf. reflexivity.
Qed.

Lemma init_no_pairs env p s0 content :
  files env (path_or_default env p) = Text content ->
  parse_lines (stripped_lines (readlines content)) [] = Return [] ->
  __init__ env p s0 =
    (Return tt,
     {| self := unloaded (path_or_default env p);
        log := log s0 ++ [warning_no_valid_lines] |}).
Proof.
  intros Hf Hp. run_monad. unfold isfile, open_lines. simpl.
  rewrite Hf. simpl. rewrite Hp. reflexivity.
Qed.

Lemma init_fit_raises env p s0 content e0 pairs e :
  files env (path_or_default env p) = Text content ->
  parse_lines (stripped_lines (readlines content)) [] = Return (e0 :: pairs) ->
  Sklearn.fit_transform (corpus_of (e0 :: pairs)) = Raise e ->
  __init__ env p s0 =
    (Return tt,
     {| self := {| path := path_or_default env p; dataset := e0 :: pairs;
                   vectorizer := Some Sklearn.Unfitted; X := None |};
        log := log s0 ++ [exception_failed e] |}).
Proof.
  intros Hf Hp Hfit. run_monad. unfold isfile, open_lines. simpl.
  rewrite Hf. simpl. rewrite Hp. simpl.
  unfold corpus_of in Hfit. simpl in Hfit. rewrite Hfit. reflexivity.
Qed.

Lemma init_trained env p s0 content e0 pairs v x :
  files env (path_or_default env p) = Text content ->
  parse_lines (stripped_lines (readlines content)) [] = Return (e0 :: pairs) ->
  Sklearn.fit_transform (corpus_of (e0 :: pairs)) = Return (v, x) ->
  __init__ env p s0 =
    (Return tt,
     {| self := {| path := path_or_default env p; dataset := e0 :: pairs;
                   vectorizer := Some v; X := Some x |};
        log := log s0 ++ [info_trained (S (List.length pairs))] |}).
Proof.
  intros Hf Hp Hfit. run_monad. unfold isfile, open_lines. simpl.
  rewrite Hf. simpl. rewrite Hp. simpl.
  unfold corpus_of in Hfit. simpl in Hfit. rewrite Hfit. reflexivity.
Qed.

(** The constructor always returns; it leaves either no index at all or
    an index built from the whole corpus. *)
Lemma constructed_cases (s : state) :
  constructed s -> X (self s) = None \/ ready (self s).
Proof.
  intros (env & p & s0 & ->).
  destruct (files env (path_or_default env p)) as [|e|content] eqn:Hf.
  - rewrite (init_no_file _ _ _ Hf). left. reflexivity.
  - rewrite (init_unreadable _ _ _ _ Hf). left. reflexivity.
  - destruct (parse_file (readlines content)) as (entries & _ & Hp).
    destruct (concat entries) as [|e0 pairs] eqn:Hc.
    + rewrite (init_no_pairs _ _ _ _ Hf Hp). left. reflexivity.
    + destruct (Sklearn.fit_transform (corpus_of (e0 :: pairs))) as [[v x]|e] eqn:Hfit.
      * rewrite (init_trained _ _ _ _ _ _ _ _ Hf Hp Hfit). right. simpl.
        split; [discriminate|]. exists v, x. simpl. auto.
      * rewrite (init_fit_raises _ _ _ _ _ _ _ Hf Hp Hfit). left. reflexivity.
Qed.


End Construction.

(** ** Vectors of reals *)

Section Vectors.
Import Sklearn.
Local Open Scope R_scope.

Lemma sum_squares_nonneg (v : list R) : 0 <= sum_squares v.
Proof.
  induction v as [|x v IH]; unfold sum_squares in *; simpl; [lra|].
  pose proof (Rle_0_sqr x) as Hx. unfold Rsqr in Hx. lra.
Qed.

Lemma sum_squares_zero (v : list R) :
  sum_squares v = 0 -> Forall (fun x => x = 0) v.
Proof.
  induction v as [|x v IH]; intro H; [constructor|].
  unfold sum_squares in H. simpl in H. fold (sum_squares v) in H.
  pose proof (sum_squares_nonneg v) as Hv.
  pose proof (Rle_0_sqr x) as Hx. unfold Rsqr in Hx.
  assert (Hxx : x * x = 0) by lra.
  constructor; [|apply IH; lra].
  destruct (Rmult_integral _ _ Hxx); assumption.
Qed.

Lemma zeros_sum_squares (v : list R) :
  Forall (fun x => x = 0) v -> sum_squares v = 0.
Proof.
  induction 1 as [|x v Hx _ IH]; unfold sum_squares in *; simpl; [reflexivity|].
  subst x. rewrite IH. lra.
Qed.


Lemma l2_norm_zero (v : list R) : l2_norm v = 0 <-> sum_squares v = 0.
Proof.
  unfold l2_norm. split; intro H.
  - apply sqrt_eq_0; [apply sum_squares_nonneg | exact H].
  - rewrite H. apply sqrt_0.
Qed.

Lemma l2_norm_sqr (v : list R) : l2_norm v * l2_norm v = sum_squares v.
Proof. apply sqrt_sqrt, sum_squares_nonneg. Qed.

Lemma dot_zeros_l (u v : list R) :
  Forall (fun x => x = 0) u -> dot u v = 0.
Proof.
  intro H. revert v. induction H as [|x u Hx _ IH]; intro v; [reflexivity|].
  destruct v as [|y v]; [reflexivity|].
  unfold dot in *. simpl. rewrite IH. subst x. lra.
Qed.


Lemma dot_self (u : list R) : dot u u = sum_squares u.
Proof.
  induction u as [|x u IH]; [reflexivity|].
  unfold dot, sum_squares in *. simpl. now rewrite IH.
Qed.

Lemma dot_scaled (a b : R) (u v : list R) :
  a <> 0 -> b <> 0 ->
  dot (map (fun x => x / a) u) (map (fun x => x / b) v) = dot u v / (a * b).
Proof.
  intros Ha Hb. revert v.
  induction u as [|x u IH]; intro v; simpl.
  - unfold dot. simpl. field. auto.
  - destruct v as [|y v]; simpl.
    + unfold dot. simpl. field. auto.
    + unfold dot in *. simpl. rewrite IH. field. auto.
Qed.

Lemma dot_scaled_l (a : R) (u v : list R) :
  a <> 0 -> dot (map (fun x => x / a) u) v = dot u v / a.
Proof.
  intros Ha. revert v.
  induction u as [|x u IH]; intro v; simpl.
  - unfold dot. simpl. field. auto.
  - destruct v as [|y v]; simpl.
    + unfold dot. simpl. field. auto.
    + unfold dot in *. simpl. rewrite IH. field. auto.
Qed.

Lemma dot_scaled_r (b : R) (u v : list R) :
  b <> 0 -> dot u (map (fun x => x / b) v) = dot u v / b.
Proof.
  intros Hb. revert v.
  induction u as [|x u IH]; intro v; simpl.
  - unfold dot. simpl. field. auto.
  - destruct v as [|y v]; simpl.
    + unfold dot. simpl. field. auto.
    + unfold dot in *. simpl. rewrite IH. field. auto.
Qed.

Lemma sum_squares_scaled (a : R) (v : list R) :
  a <> 0 -> sum_squares (map (fun x => x / a) v) = sum_squares v / (a * a).
Proof.
  intro Ha. rewrite <- !dot_self. now apply dot_scaled.
Qed.

Lemma normalize_zero (v : list R) : l2_norm v = 0 -> normalize_row v = v.
Proof.
  intro H. unfold normalize_row. destruct (Req_dec_T (l2_norm v) 0); [reflexivity|contradiction].
Qed.

Lemma normalize_nonzero (v : list R) :
  l2_norm v <> 0 -> normalize_row v = map (fun x => x / l2_norm v) v.
Proof.
  intro H. unfold normalize_row. destruct (Req_dec_T (l2_norm v) 0); [contradiction|reflexivity].
Qed.

Lemma normalize_length (v : list R) : List.length (normalize_row v) = List.length v.
Proof.
  unfold normalize_row. destruct (Req_dec_T (l2_norm v) 0); [reflexivity|apply length_map].
Qed.

(** A normalised row of non-zero norm has unit length. *)
Lemma normalize_unit (v : list R) :
  l2_norm v <> 0 -> sum_squares (normalize_row v) = 1.
Proof.
  intro H. rewrite (normalize_nonzero _ H), (sum_squares_scaled _ _ H), l2_norm_sqr.
  assert (sum_squares v <> 0) by (intro Hz; apply H, l2_norm_zero, Hz).
  now field.
Qed.

Lemma normalize_unit_norm (v : list R) :
  l2_norm v <> 0 -> l2_norm (normalize_row v) = 1.
Proof.
  intro H. unfold l2_norm at 1. rewrite (normalize_unit _ H). apply sqrt_1.
Qed.

Lemma map_div_1 (v : list R) : map (fun x => x / 1) v = v.
Proof.
  induction v as [|x v IH]; simpl; [reflexivity|].
  rewrite IH. f_equal. field.
Qed.

(** Normalising twice is normalising once: the second normalisation
    made by [cosine_similarity] changes nothing. *)
Lemma normalize_idempotent (v : list R) :
  normalize_row (normalize_row v) = normalize_row v.
Proof.
  destruct (Req_dec_T (l2_norm v) 0) as [Hz|Hnz].
  - rewrite (normalize_zero _ Hz). now apply normalize_zero.
  - rewrite (normalize_nonzero (normalize_row v)).
    + rewrite (normalize_unit_norm _ Hnz). apply map_div_1.
    + rewrite (normalize_unit_norm _ Hnz). lra.
Qed.


Lemma sum_squares_normalized_le (v : list R) : sum_squares (normalize_row v) <= 1.
Proof.
  destruct (Req_dec_T (l2_norm v) 0) as [Hz|Hnz].
  - rewrite (normalize_zero _ Hz). apply l2_norm_zero in Hz. lra.
  - rewrite (normalize_unit _ Hnz). lra.
Qed.

(** Twice the product of two vectors of one length is at most the sum of
    their squared lengths, with equality only for equal vectors. *)
Lemma dot_bound (u : list R) :
  forall v, List.length u = List.length v ->
    2 * dot u v <= sum_squares u + sum_squares v /\
    (2 * dot u v = sum_squares u + sum_squares v -> u = v).
Proof.
  induction u as [|x u IH]; intros [|y v] Hlen; try discriminate.
  - unfold dot, sum_squares. simpl. split; [lra|reflexivity].
  - injection Hlen as Hlen. destruct (IH v Hlen) as [Hle Heq].
    unfold dot, sum_squares in *. simpl.
    pose proof (Rle_0_sqr (x - y)) as Hxy. unfold Rsqr in Hxy.
    split; [nra|].
    intro H.
    assert (Hd : (x - y) * (x - y) = 0) by nra.
    assert (x = y) by (destruct (Rmult_integral _ _ Hd); lra).
    subst y. f_equal. apply Heq. nra.
Qed.

End Vectors.

(** ** numpy's argmax *)

Section Argmax.
Import Numpy.

Lemma first_max_snoc_new (pre : list R) (best : nat) (x : R) :
  first_max pre best -> (nth best pre 0 < x)%R ->
  first_max (pre ++ [x]) (List.length pre).
Proof.
  intros (Hlt & Hmax & Hfirst) Hx.
  assert (Hn : nth (List.length pre) (pre ++ [x]) 0%R = x).
  { rewrite app_nth2, Nat.sub_diag; [reflexivity|lia]. }
  unfold first_max. rewrite Hn, length_app. simpl. repeat split.
  - lia.
  - intros j Hj. destruct (Nat.eq_dec j (List.length pre)) as [->|Hne].
    + rewrite Hn. lra.
    + rewrite app_nth1 by lia. specialize (Hmax j ltac:(lia)). lra.
  - intros j Hj. rewrite app_nth1 by lia. specialize (Hmax j Hj). lra.
Qed.

Lemma first_max_snoc_keep (pre : list R) (best : nat) (x : R) :
  first_max pre best -> ~ (nth best pre 0 < x)%R ->
  first_max (pre ++ [x]) best.
Proof.
  intros (Hlt & Hmax & Hfirst) Hx.
  unfold first_max. rewrite length_app. simpl.
  rewrite (app_nth1 pre [x] 0%R Hlt). repeat split.
  - lia.
  - intros j Hj. destruct (Nat.eq_dec j (List.length pre)) as [->|Hne].
    + rewrite app_nth2, Nat.sub_diag by lia. simpl. lra.
    + rewrite app_nth1 by lia. apply Hmax. lia.
  - intros j Hj. rewrite app_nth1 by lia. now apply Hfirst.
Qed.

Lemma argmax_from_first_max (l : list R) :
  forall pre best,
    first_max pre best ->
    first_max (pre ++ l) (argmax_from l (List.length pre) best (nth best pre 0%R)).
Proof.
  induction l as [|x l IH]; intros pre best Hb; simpl.
  - now rewrite app_nil_r.
  - destruct (Rlt_dec (nth best pre 0%R) x) as [Hx|Hx].
    + pose proof (first_max_snoc_new _ _ _ Hb Hx) as Hnew.
      specialize (IH (pre ++ [x]) (List.length pre) Hnew).
      rewrite <- app_assoc, length_app in IH. simpl in IH.
      rewrite Nat.add_1_r in IH.
      rewrite app_nth2, Nat.sub_diag in IH by lia. exact IH.
    + pose proof (first_max_snoc_keep _ _ _ Hb Hx) as Hkeep.
      specialize (IH (pre ++ [x]) best Hkeep).
      rewrite <- app_assoc, length_app in IH. simpl in IH.
      rewrite Nat.add_1_r in IH.
      destruct Hb as (Hlt & _).
      rewrite (app_nth1 pre [x] 0%R Hlt) in IH. exact IH.
Qed.

Lemma first_max_unique (l : list R) (a b : nat) :
  first_max l a -> first_max l b -> a = b.
Proof.
  intros (Ha & Hamax & Hafirst) (Hb & Hbmax & Hbfirst).
  destruct (Nat.lt_trichotomy a b) as [H|[H|H]]; [|exact H|].
  - specialize (Hbfirst a H). specialize (Hamax b Hb). lra.
  - specialize (Hafirst b H). specialize (Hbmax a Ha). lra.
Qed.

(** On a non-empty array [argmax] returns the first index of the maximum. *)
Lemma argmax_first_max (l : list R) :
  l <> [] -> exists r, argmax l = Return r /\ first_max l r.
Proof.
  destruct l as [|x l]; [congruence|]. intros _.
  exists (argmax_from l 1 0 x). split; [reflexivity|].
  apply (argmax_from_first_max l [x] 0).
  unfold first_max. simpl. repeat split; try lia.
  intros j Hj. replace j with 0 by lia. lra.
Qed.

Lemma argmax_unique (l : list R) (i : nat) :
  first_max l i -> argmax l = Return i.
Proof.
  intro Hi.
  assert (Hne : l <> []) by (destruct Hi as (Hlt & _); destruct l; simpl in *; [lia|discriminate]).
  destruct (argmax_first_max l Hne) as (r & Hr & Hfm).
  now rewrite Hr, (first_max_unique _ _ _ Hfm Hi).
Qed.

Lemma pick_state (data : list qa) (sims : list R) (r : nat) :
  first_max sims r ->
  pick data sims =
    if Rlt_dec (nth r sims 0%R) threshold then Return None
    else match nth_error data r with
         | Some e => Return (Some (answer e))
         | None => Raise IndexError
         end.
Proof.
  intro H. unfold pick. now rewrite (argmax_unique _ _ H).
Qed.

End Argmax.

(** ** Running [get_answer] *)

Section Answering.
Context {nltk : Nltk}.
Import Sklearn.

Ltac run_answer :=
  unfold get_answer, bind, get_self, lift, ret, raise; simpl.

(** Without a corpus, a vectoriser or an index the guard answers [None]. *)
Lemma get_answer_guard (s : state) (q : string) :
  dataset (self s) = [] \/ vectorizer (self s) = None \/ X (self s) = None ->
  get_answer q s = (Return None, s).
Proof.
  intro H. run_answer.
  destruct (dataset (self s)) as [|d0 data]; [reflexivity|].
  destruct (vectorizer (self s)) as [v|]; [|reflexivity].
  destruct (X (self s)) as [x|]; [|reflexivity].
  destruct H as [H|[H|H]]; discriminate.
Qed.

Lemma index2_row (row : list R) (r : nat) :
  r < List.length row -> Numpy.index2 [row] 0 r = Return (nth r row 0%R).
Proof.
  intro Hr. unfold Numpy.index2. simpl.
  destruct (nth_error row r) as [y|] eqn:E.
  - now rewrite (nth_error_nth _ _ _ E).
  - apply nth_error_None in E. lia.
Qed.

(** With a fitted vectoriser and an index of the right width,
    [get_answer] is [pick] on the similarities and leaves the state as
    it found it. *)
Lemma get_answer_fitted (s : state) (q : string) vocab idf x :
  dataset (self s) <> [] ->
  vectorizer (self s) = Some (Fitted vocab idf) ->
  X (self s) = Some x ->
  same_width [transformed_row vocab idf (_preprocess_text q)] x = true ->
  get_answer q s = (pick (dataset (self s)) (similarities vocab idf x q), s).
Proof.
  intros Hd Hv Hx Hw. run_answer.
  destruct (dataset (self s)) as [|d0 data] eqn:Ed; [congruence|].
  rewrite Hv, Hx. simpl.
  unfold cosine_similarity. unfold transformed_row in Hw. rewrite Hw. simpl.
  rewrite app_nil_r. fold (transformed_row vocab idf (_preprocess_text q)).
  fold (similarities vocab idf x q).
  unfold pick.
  destruct (similarities vocab idf x q) as [|y ys] eqn:Es; [reflexivity|].
  destruct (argmax_first_max (y :: ys)) as (r & Hr & Hfm); [discriminate|].
  rewrite Hr. cbn -[nth nth_error Numpy.index2].
  destruct Hfm as (Hlt & _).
  rewrite (index2_row _ _ Hlt).
  destruct (Rlt_dec (nth r (y :: ys) 0%R) threshold); [reflexivity|].
  destruct (nth_error (d0 :: data) r); reflexivity.
Qed.

End Answering.

(** ** The index built by [fit_transform] *)

Section Index.
Import Sklearn.

Lemma in_learn_vocabulary (docs : list string) (t : string) :
  In t (learn_vocabulary docs) <-> exists d, In d docs /\ In t (analyze d).
Proof.
  unfold learn_vocabulary. split.
  - intro H.
    apply (Permutation_in _ (Permutation_sym (StringSort.Permuted_sort _))) in H.
    apply nodup_In, in_concat in H. destruct H as (toks & Hin & Ht).
    apply in_map_iff in Hin. destruct Hin as (d & <- & Hd). eauto.
  - intros (d & Hd & Ht).
    apply (Permutation_in _ (StringSort.Permuted_sort _)).
    apply nodup_In, in_concat. exists (analyze d). split; [|exact Ht].
    apply in_map_iff. eauto.
Qed.


Lemma fit_transform_inv (docs : list string) v x :
  fit_transform docs = Return (v, x) ->
  learn_vocabulary docs <> [] /\
  v = Fitted (learn_vocabulary docs)
        (fit_idf (List.length (learn_vocabulary docs))
           (count_matrix (learn_vocabulary docs) docs)) /\
  x = tfidf_transform
        (fit_idf (List.length (learn_vocabulary docs))
           (count_matrix (learn_vocabulary docs) docs))
        (count_matrix (learn_vocabulary docs) docs).
Proof.
  unfold fit_transform, count_fit_transform. intros H.
  destruct (learn_vocabulary docs) as [|t ts] eqn:E; simpl in H; [discriminate|].
  injection H as <- <-. repeat split. discriminate.
Qed.

Lemma fit_transform_vocab (docs : list string) :
  learn_vocabulary docs <> [] ->
  fit_transform docs =
    Return (Fitted (learn_vocabulary docs)
              (fit_idf (List.length (learn_vocabulary docs))
                 (count_matrix (learn_vocabulary docs) docs)),
            tfidf_transform
              (fit_idf (List.length (learn_vocabulary docs))
                 (count_matrix (learn_vocabulary docs) docs))
              (count_matrix (learn_vocabulary docs) docs)).
Proof.
  intro H. unfold fit_transform, count_fit_transform.
  destruct (learn_vocabulary docs) as [|t ts]; [congruence|reflexivity].
Qed.


Lemma count_row_length vocab toks : List.length (count_row vocab toks) = List.length vocab.
Proof. apply length_map. Qed.

Lemma fit_idf_length n C : List.length (fit_idf n C) = n.
Proof.
  unfold fit_idf, document_frequency. now rewrite !length_map, length_seq.
Qed.

Lemma scale_row_length idf row :
  List.length idf = List.length row -> List.length (scale_row idf row) = List.length row.
Proof.
  intro H. unfold scale_row. rewrite length_map, length_combine. lia.
Qed.

Lemma transformed_row_length vocab idf text :
  List.length idf = List.length vocab ->
  List.length (transformed_row vocab idf text) = List.length vocab.
Proof.
  intro H. unfold transformed_row.
  rewrite normalize_length, scale_row_length; rewrite count_row_length; auto.
Qed.

(** The rows of the index are the rows [transform] computes for the
    documents. *)
Lemma tfidf_transform_rows vocab idf docs :
  tfidf_transform idf (count_matrix vocab docs) =
  map (transformed_row vocab idf) docs.
Proof.
  unfold tfidf_transform, count_matrix, transformed_row.
  now rewrite map_map.
Qed.

Lemma same_width_rows vocab idf docs text :
  List.length idf = List.length vocab ->
  same_width [transformed_row vocab idf text]
    (map (transformed_row vocab idf) docs) = true.
Proof.
  intro H. unfold same_width. simpl. rewrite andb_true_r.
  apply forallb_forall. intros row Hin.
  apply in_map_iff in Hin. destruct Hin as (d & <- & _).
  rewrite !transformed_row_length by exact H. apply Nat.eqb_refl.
Qed.

End Index.

(** ** Answers of a ready model *)

Section Ready.
Context {nltk : Nltk}.
Import Sklearn.

Lemma ready_index (me : QnAModel) :
  ready me ->
  index_vocabulary (dataset me) <> [] /\
  vectorizer me = Some (Fitted (index_vocabulary (dataset me)) (index_idf (dataset me))) /\
  X me = Some (index_rows (dataset me)).
Proof.
  intros (_ & v & x & Hv & Hx & Hfit).
  apply fit_transform_inv in Hfit. destruct Hfit as (Hne & -> & ->).
  unfold index_rows, index_idf, index_vocabulary.
  rewrite <- tfidf_transform_rows. auto.
Qed.

Lemma index_idf_length (data : list qa) :
  List.length (index_idf data) = List.length (index_vocabulary data).
Proof. apply fit_idf_length. Qed.

Lemma index_rows_length (data : list qa) :
  List.length (index_rows data) = List.length data.
Proof. unfold index_rows, corpus_of. now rewrite !length_map. Qed.

Lemma scores_length (data : list qa) (q : string) :
  List.length (scores data q) = List.length data.
Proof.
  unfold scores, similarities. now rewrite length_map, index_rows_length.
Qed.

(** A ready model answers by [pick] on the scores of its corpus, and
    answering changes nothing. *)
Lemma get_answer_ready (s : state) (q : string) :
  ready (self s) ->
  get_answer q s = (pick (dataset (self s)) (scores (dataset (self s)) q), s).
Proof.
  intro Hr. pose proof Hr as (Hd & _).
  destruct (ready_index _ Hr) as (_ & Hv & Hx).
  apply (get_answer_fitted s q _ _ _ Hd Hv Hx).
  apply same_width_rows, index_idf_length.
Qed.

Lemma ready_first_max (me : QnAModel) (q : string) :
  ready me ->
  exists best e,
    first_max (scores (dataset me) q) best /\
    nth_error (dataset me) best = Some e.
Proof.
  intros (Hd & _).
  destruct (argmax_first_max (scores (dataset me) q)) as (r & _ & Hfm).
  - intro Hz. apply (f_equal (@List.length R)) in Hz.
    rewrite scores_length in Hz. destruct (dataset me); [congruence|discriminate].
  - pose proof Hfm as (Hlt & _). rewrite scores_length in Hlt.
    destruct (nth_error (dataset me) r) as [e|] eqn:E.
    + eauto.
    + apply nth_error_None in E. lia.
Qed.

Lemma ask_all_same (s : state) (f : string -> option string) (qs : list string) :
  (forall q, In q qs -> get_answer q s = (Return (f q), s)) ->
  ask_all qs s = (Return (map f qs), s).
Proof.
  induction qs as [|q qs IH]; intro H; simpl; [reflexivity|].
  unfold bind. rewrite (H q (or_introl eq_refl)).
  rewrite IH by (intros q' Hq'; apply H; now right). reflexivity.
Qed.


End Ready.

(** ** The weights of the index *)

Section Weights.
Context {nltk : Nltk}.
Import Sklearn.

Lemma existsb_count_occ (t : string) (toks : list string) :
  existsb (String.eqb t) toks = negb (count_occ string_dec toks t =? 0).
Proof.
  induction toks as [|x toks IH]; simpl; [reflexivity|].
  destruct (string_dec x t) as [->|Hne].
  - now rewrite String.eqb_refl.
  - rewrite IH. destruct (String.eqb t x) eqn:E; [|reflexivity].
    apply String.eqb_eq in E. congruence.
Qed.

Lemma count_row_nth (vocab toks : list string) (k : nat) :
  k < List.length vocab ->
  nth k (count_row vocab toks) 0 = count_occ string_dec toks (nth k vocab EmptyString).
Proof.
  intro Hk. unfold count_row.
  rewrite (nth_indep _ 0 (count_occ string_dec toks EmptyString))
    by (now rewrite length_map).
  apply map_nth.
Qed.

(** The number of non-zero entries of a column is the number of
    documents that contain the column's term. *)
Lemma column_df_term (vocab docs : list string) (k : nat) :
  k < List.length vocab ->
  column_df (count_matrix vocab docs) k = doc_frequency docs (nth k vocab EmptyString).
Proof.
  intro Hk. unfold column_df, count_matrix, doc_frequency.
  induction docs as [|d docs IH]; simpl; [reflexivity|].
  rewrite (count_row_nth _ _ _ Hk), existsb_count_occ.
  destruct (negb (count_occ string_dec (analyze d) (nth k vocab EmptyString) =? 0));
    simpl; now rewrite IH.
Qed.

Lemma map_seq_nth {A B : Type} (l : list A) (d : A) (h : nat -> B) (f : A -> B) :
  (forall k, k < List.length l -> h k = f (nth k l d)) ->
  map h (seq 0 (List.length l)) = map f l.
Proof.
  intro H.
  apply (nth_ext _ _ (h 0) (f d)).
  - now rewrite !length_map, length_seq.
  - intros n Hn. rewrite length_map, length_seq in Hn.
    rewrite (map_nth h), (map_nth f), seq_nth by exact Hn.
    simpl. now apply H.
Qed.

Lemma smooth_idf_formula (n df : nat) :
  smooth_idf n df = (ln ((1 + INR n) / (1 + INR df)) + 1)%R.
Proof.
  unfold smooth_idf. rewrite !plus_INR. simpl.
  replace (INR n + 1)%R with (1 + INR n)%R by ring.
  replace (INR df + 1)%R with (1 + INR df)%R by ring.
  reflexivity.
Qed.

(** The fitted weights are the smoothed inverse document frequencies of
    the vocabulary terms. *)
Lemma fit_idf_weights (vocab docs : list string) :
  fit_idf (List.length vocab) (count_matrix vocab docs) =
  map (idf_weight docs) vocab.
Proof.
  unfold fit_idf, document_frequency. rewrite map_map.
  apply (map_seq_nth vocab EmptyString). intros k Hk.
  rewrite (column_df_term _ _ _ Hk), smooth_idf_formula.
  unfold idf_weight, count_matrix. now rewrite length_map.
Qed.

Lemma scale_row_weights (f : string -> nat) (g : string -> R) (vocab : list string) :
  scale_row (map g vocab) (map f vocab) = map (fun t => (INR (f t) * g t)%R) vocab.
Proof.
  unfold scale_row. induction vocab as [|t vocab IH]; simpl; [reflexivity|].
  now rewrite IH.
Qed.

(** The row [transform] computes is the normalised vector of tf-idf
    weights. *)
Lemma transformed_row_vector (vocab docs : list string) (text : string) :
  transformed_row vocab (map (idf_weight docs) vocab) text =
  tfidf_vector vocab docs text.
Proof.
  unfold transformed_row, tfidf_vector, tfidf_weights, count_row, term_frequency.
  now rewrite scale_row_weights.
Qed.

Lemma index_idf_weights (data : list qa) :
  index_idf data = map (idf_weight (corpus_of data)) (index_vocabulary data).
Proof. apply fit_idf_weights. Qed.

Lemma index_rows_vectors (data : list qa) :
  index_rows data =
  map (tfidf_vector (index_vocabulary data) (corpus_of data)) (corpus_of data).
Proof.
  unfold index_rows. rewrite index_idf_weights.
  apply map_ext. intro d. apply transformed_row_vector.
Qed.

Lemma query_row_vector (data : list qa) (q : string) :
  query_row data q =
  tfidf_vector (index_vocabulary data) (corpus_of data) (_preprocess_text q).
Proof.
  unfold query_row. rewrite index_idf_weights. apply transformed_row_vector.
Qed.

Lemma doc_frequency_le (docs : list string) (t : string) :
  doc_frequency docs t <= List.length docs.
Proof. unfold doc_frequency. apply filter_length_le. Qed.

(** Every inverse document frequency is at least one. *)
Lemma idf_weight_ge_1 (docs : list string) (t : string) : (1 <= idf_weight docs t)%R.
Proof.
  unfold idf_weight.
  pose proof (doc_frequency_le docs t) as Hle. apply le_INR in Hle.
  pose proof (pos_INR (doc_frequency docs t)) as Hdf.
  set (n := INR (List.length docs)) in *.
  set (df := INR (doc_frequency docs t)) in *.
  assert (Hq : (1 <= (1 + n) / (1 + df))%R).
  { apply (Rmult_le_reg_r (1 + df)); [lra|]. field_simplify; lra. }
  destruct (Req_dec_T ((1 + n) / (1 + df)) 1) as [E|E].
  - rewrite E, ln_1. lra.
  - assert (Hlt : (ln 1 < ln ((1 + n) / (1 + df)))%R) by (apply ln_increasing; lra).
    rewrite ln_1 in Hlt. lra.
Qed.

End Weights.

(** ** Zero and non-zero vectors *)

Section ZeroVectors.
Context {nltk : Nltk}.
Import Sklearn.
Local Open Scope R_scope.

Lemma tfidf_weights_zero (vocab docs : list string) (text : string) :
  (forall t, In t vocab -> term_frequency t text = 0%nat) ->
  Forall (fun w => w = 0) (tfidf_weights vocab docs text).
Proof.
  intro H. unfold tfidf_weights. apply Forall_map, Forall_forall.
  intros t Ht. rewrite (H t Ht). simpl. ring.
Qed.

Lemma normalize_zeros (v : list R) :
  Forall (fun w => w = 0) v -> normalize_row v = v.
Proof. intro H. apply normalize_zero, l2_norm_zero, zeros_sum_squares, H. Qed.

Lemma tfidf_vector_zero (vocab docs : list string) (text : string) :
  (forall t, In t vocab -> term_frequency t text = 0%nat) ->
  Forall (fun w => w = 0) (tfidf_vector vocab docs text).
Proof.
  intro H. unfold tfidf_vector.
  rewrite normalize_zeros; now apply tfidf_weights_zero.
Qed.

Lemma tfidf_weights_nonzero (vocab docs : list string) (text t : string) :
  In t vocab -> term_frequency t text <> 0%nat ->
  l2_norm (tfidf_weights vocab docs text) <> 0.
Proof.
  intros Ht Htf Hz.
  apply l2_norm_zero, sum_squares_zero in Hz.
  rewrite Forall_forall in Hz.
  specialize (Hz (INR (term_frequency t text) * idf_weight docs t)).
  assert (Hin : In (INR (term_frequency t text) * idf_weight docs t)
                   (tfidf_weights vocab docs text)).
  { unfold tfidf_weights.
    apply (in_map (fun t => INR (term_frequency t text) * idf_weight docs t)), Ht. }
  specialize (Hz Hin).
  pose proof (idf_weight_ge_1 docs t) as Hidf.
  assert (Hpos : 1 <= INR (term_frequency t text)).
  { change 1 with (INR 1). apply le_INR. lia. }
  nra.
Qed.

Lemma index_terms_nil_frequency (q t : string) :
  index_terms q = [] -> term_frequency t (_preprocess_text q) = 0%nat.
Proof. unfold index_terms, term_frequency. now intros ->. Qed.

(** A question with at least one token, asked of a corpus that holds it,
    has a vector of unit length. *)
Lemma document_vector_unit (data : list qa) (e : qa) :
  In e data -> index_terms (question e) <> [] ->
  sum_squares (document_vector data e) = 1.
Proof.
  intros He Ht. unfold document_vector, tfidf_vector.
  apply normalize_unit.
  unfold index_terms in Ht.
  destruct (analyze (_preprocess_text (question e))) as [|t ts] eqn:E; [congruence|].
  apply (tfidf_weights_nonzero _ _ _ t).
  - apply in_learn_vocabulary. exists (_preprocess_text (question e)). split.
    + unfold corpus_of. apply (in_map (fun e => _preprocess_text (question e))), He.
    + rewrite E. now left.
  - unfold term_frequency. rewrite E. simpl.
    destruct (string_dec t t); [discriminate|congruence].
Qed.

Lemma index_rows_nth (data : list qa) (j : nat) (e : qa) :
  nth_error data j = Some e ->
  nth j (index_rows data) [] = document_vector data e.
Proof.
  intro H. rewrite index_rows_vectors. unfold corpus_of. rewrite map_map.
  apply nth_error_nth.
  now rewrite nth_error_map, H.
Qed.

(** The score of entry [j]: the product of the two vectors, both already
    of unit length or zero. *)
Lemma scores_nth (data : list qa) (q : string) (j : nat) (e : qa) :
  nth_error data j = Some e ->
  nth j (scores data q) 0 = dot (query_row data q) (document_vector data e).
Proof.
  intro H. unfold scores, similarities.
  fold (query_row data q).
  erewrite nth_error_nth.
  2:{ rewrite nth_error_map.
      rewrite (nth_error_nth' (index_rows data) []).
      - simpl. reflexivity.
      - rewrite index_rows_length. apply nth_error_Some. congruence. }
  rewrite (index_rows_nth _ _ _ H).
  unfold query_row at 1, transformed_row. rewrite normalize_idempotent.
  unfold document_vector, tfidf_vector. rewrite normalize_idempotent.
  reflexivity.
Qed.

End ZeroVectors.

(** ** Selection *)

Section Selection.
Context {nltk : Nltk}.
Import Sklearn.
Local Open Scope R_scope.

Lemma nth_error_in_range (data : list qa) (j : nat) :
  (j < List.length data)%nat -> exists e, nth_error data j = Some e.
Proof.
  intro H. destruct (nth_error data j) as [e|] eqn:E; [eauto|].
  apply nth_error_None in E. lia.
Qed.

Lemma threshold_pos : 0 < threshold.
Proof. unfold threshold. lra. Qed.

(** A question none of whose tokens is in the vocabulary scores zero
    against every entry. *)
Lemma unknown_terms_scores (data : list qa) (q : string) (j : nat) :
  (forall t, In t (index_vocabulary data) ->
             term_frequency t (_preprocess_text q) = 0%nat) ->
  (j < List.length data)%nat ->
  nth j (scores data q) 0 = 0.
Proof.
  intros Hq Hj. destruct (nth_error_in_range _ _ Hj) as (e & He).
  rewrite (scores_nth _ _ _ _ He), query_row_vector.
  apply dot_zeros_l, tfidf_vector_zero, Hq.
Qed.

(** Such a question is answered [None] by a ready model. *)
Lemma unknown_terms_answer (s : state) (q : string) :
  ready (self s) ->
  (forall t, In t (index_vocabulary (dataset (self s))) ->
             term_frequency t (_preprocess_text q) = 0%nat) ->
  get_answer q s = (Return None, s).
Proof.
  intros Hr Hq. pose proof Hr as (Hd & _).
  rewrite (get_answer_ready _ _ Hr).
  assert (Hlen : (0 < List.length (dataset (self s)))%nat)
    by (destruct (dataset (self s)); [congruence|simpl; lia]).
  rewrite (pick_state _ _ 0%nat).
  - rewrite (unknown_terms_scores _ _ _ Hq Hlen).
    destruct (Rlt_dec 0 threshold) as [_|Hn]; [reflexivity|].
    exfalso. apply Hn, threshold_pos.
  - unfold first_max. rewrite scores_length. repeat split; [exact Hlen| |lia].
    intros j Hj.
    rewrite (unknown_terms_scores _ _ _ Hq Hj), (unknown_terms_scores _ _ _ Hq Hlen).
    lra.
Qed.


Lemma document_vector_length (data : list qa) (e : qa) :
  List.length (document_vector data e) = List.length (index_vocabulary data).
Proof.
  unfold document_vector, tfidf_vector, tfidf_weights.
  now rewrite normalize_length, length_map.
Qed.

Lemma document_vector_le_1 (data : list qa) (e : qa) :
  sum_squares (document_vector data e) <= 1.
Proof. apply sum_squares_normalized_le. Qed.

(** The exact question of an entry that has tokens scores one against
    it, at most one against the others, and one only against entries
    with the same vector. *)
Lemma exact_question_scores (data : list qa) (i : nat) (e : qa) :
  nth_error data i = Some e -> index_terms (question e) <> [] ->
  nth i (scores data (question e)) 0 = 1 /\
  forall j e', nth_error data j = Some e' ->
    nth j (scores data (question e)) 0 <= 1 /\
    (nth j (scores data (question e)) 0 = 1 ->
     document_vector data e' = document_vector data e).
Proof.
  intros He Ht.
  assert (Hq : query_row data (question e) = document_vector data e)
    by apply query_row_vector.
  assert (Hu : sum_squares (document_vector data e) = 1)
    by (apply document_vector_unit; [eapply nth_error_In; eauto | exact Ht]).
  split.
  - rewrite (scores_nth _ _ _ _ He), Hq, dot_self. exact Hu.
  - intros j e' He'. rewrite (scores_nth _ _ _ _ He'), Hq.
    destruct (dot_bound (document_vector data e) (document_vector data e'))
      as [Hle Heq]; [now rewrite !document_vector_length|].
    pose proof (document_vector_le_1 data e') as H1.
    split; [lra|].
    intro Hone. symmetry. apply Heq. lra.
Qed.

(** A ready model asked the exact question of an entry that has tokens,
    and that no earlier entry shares its vector with, returns the answer
    of this entry. *)
Lemma exact_question_answer (s : state) (i : nat) (e : qa) :
  ready (self s) ->
  nth_error (dataset (self s)) i = Some e ->
  index_terms (question e) <> [] ->
  (forall j e', (j < i)%nat -> nth_error (dataset (self s)) j = Some e' ->
                document_vector (dataset (self s)) e' <>
                document_vector (dataset (self s)) e) ->
  get_answer (question e) s = (Return (Some (answer e)), s).
Proof.
  intros Hr He Ht Hdup.
  set (data := dataset (self s)) in *.
  destruct (exact_question_scores data i e He Ht) as (Hi & Hothers).
  assert (Hlt : (i < List.length data)%nat) by (apply nth_error_Some; congruence).
  rewrite (get_answer_ready _ _ Hr). fold data.
  rewrite (pick_state _ _ i).
  - rewrite Hi, He.
    destruct (Rlt_dec 1 threshold) as [Hbad|_]; [|reflexivity].
    unfold threshold in Hbad. lra.
  - unfold first_max. rewrite scores_length, Hi. repeat split; [exact Hlt| |].
    + intros j Hj. destruct (nth_error_in_range _ _ Hj) as (e' & He').
      now apply (Hothers j e').
    + intros j Hj.
      destruct (nth_error_in_range data j) as (e' & He'); [lia|].
      destruct (Hothers j e' He') as [Hle Heq].
      destruct (Req_dec_T (nth j (scores data (question e)) 0) 1) as [E|E]; [|lra].
      exfalso. apply (Hdup j e' Hj He'), Heq, E.
Qed.

End Selection.

(** ** The stemmer on reference words *)

Section PorterExamples.

(** The words of the stemmer's documentation and their stems. *)
Lemma porter_reference_words :
  map Porter.stem
    ["caresses"; "flies"; "dies"; "mules"; "denied"; "died"; "agreed"; "owned";
     "humbled"; "sized"; "meeting"; "stating"; "siezing"; "itemization";
     "sensational"; "traditional"; "reference"; "colonizer"; "plotted"]
  = ["caress"; "fli"; "die"; "mule"; "deni"; "die"; "agre"; "own"; "humbl";
     "size"; "meet"; "state"; "siez"; "item"; "sensat"; "tradit"; "refer";
     "colon"; "plot"].
Proof. vm_compute. reflexivity. Qed.


End PorterExamples.


(** ** The scenario corpus *)

Section Scenario.
Import Sample Sklearn.

Lemma scenario_parse :
  parse_lines (stripped_lines (PyStr.readlines corpus_text)) [] =
  Return [who_entry; time_entry].
Proof. vm_compute. reflexivity. Qed.

Lemma scenario_vocabulary : index_vocabulary [who_entry; time_entry] = ["time"].
Proof. vm_compute. reflexivity. Qed.

Lemma scenario_terms :
  map index_terms ["who are you"; "what time is it"; "tell me a joke"; "who r u"]
  = [[]; ["time"]; ["tell"; "joke"]; []].
Proof. vm_compute. reflexivity. Qed.

Lemma time_entry_terms : index_terms (question time_entry) = ["time"].
Proof. vm_compute. reflexivity. Qed.

Lemma who_entry_terms : index_terms (question who_entry) = [].
Proof. vm_compute. reflexivity. Qed.

Lemma scenario_vocabulary_nonempty :
  learn_vocabulary (corpus_of [who_entry; time_entry]) <> [].
Proof.
  change (index_vocabulary [who_entry; time_entry] <> []).
  rewrite scenario_vocabulary. discriminate.
Qed.

Lemma scenario_file :
  files (one_file (Text corpus_text)) (path_or_default (one_file (Text corpus_text)) None)
  = Text corpus_text.
Proof. reflexivity. Qed.

Lemma scenario_state :
  scenario =
    {| self := {| path := qna_path; dataset := [who_entry; time_entry];
                  vectorizer := Some (Fitted (index_vocabulary [who_entry; time_entry])
                                        (index_idf [who_entry; time_entry]));
                  X := Some (tfidf_transform (index_idf [who_entry; time_entry])
                               (count_matrix (index_vocabulary [who_entry; time_entry])
                                  (corpus_of [who_entry; time_entry]))) |};
       log := [info_trained 2] |}.
Proof.
  unfold scenario.
  rewrite (init_trained _ None fresh corpus_text who_entry [time_entry] _ _
             scenario_file scenario_parse
             (fit_transform_vocab _ scenario_vocabulary_nonempty)).
  reflexivity.
Qed.

Lemma scenario_dataset : dataset (self scenario) = [who_entry; time_entry].
Proof. now rewrite scenario_state. Qed.

Lemma scenario_constructed : constructed scenario.
Proof. exists (one_file (Text corpus_text)), None, fresh. reflexivity. Qed.

Lemma scenario_ready : ready (self scenario).
Proof.
  rewrite scenario_state. split; [discriminate|].
  eexists _, _. cbn [dataset vectorizer X self].
  split; [reflexivity|]. split; [reflexivity|].
  rewrite (fit_transform_vocab _ scenario_vocabulary_nonempty). reflexivity.
Qed.

Lemma scenario_who_vector :
  Forall (fun w => w = 0%R) (document_vector [who_entry; time_entry] who_entry).
Proof.
  apply tfidf_vector_zero. intros t _.
  apply index_terms_nil_frequency, who_entry_terms.
Qed.

Lemma scenario_vectors_differ :
  document_vector [who_entry; time_entry] who_entry <>
  document_vector [who_entry; time_entry] time_entry.
Proof.
  intro H. apply (f_equal sum_squares) in H.
  rewrite (zeros_sum_squares _ scenario_who_vector) in H.
  rewrite (document_vector_unit [who_entry; time_entry] time_entry) in H.
  - lra.
  - right; now left.
  - rewrite time_entry_terms. discriminate.
Qed.

Lemma scenario_unknown (q : string) :
  term_frequency "time" (_preprocess_text q) = 0 ->
  get_answer q scenario = (Return None, scenario).
Proof.
  intro H. apply unknown_terms_answer; [exact scenario_ready|].
  rewrite scenario_dataset, scenario_vocabulary.
  intros t [<-|[]]. exact H.
Qed.

Lemma scenario_time :
  get_answer "what time is it" scenario = (Return (Some "Check your clock."), scenario).
Proof.
  apply (exact_question_answer scenario 1 time_entry scenario_ready).
  - now rewrite scenario_dataset.
  - rewrite time_entry_terms. discriminate.
  - rewrite scenario_dataset. intros j e' Hj He'.
    destruct j as [|j]; [|lia]. injection He' as <-.
    exact scenario_vectors_differ.
Qed.

End Scenario.

(** ** Questions without terms *)

Section Degenerate.
Context {nltk : Nltk}.
Import PyStr Sklearn.







(** A question without terms is answered [None] in every state the
    constructor can leave. *)
Lemma no_terms_answer (s : state) (q : string) :
  constructed s -> index_terms q = [] -> get_answer q s = (Return None, s).
Proof.
  intros Hc Hq. destruct (constructed_cases _ Hc) as [Hx|Hr].
  - apply get_answer_guard. auto.
  - apply unknown_terms_answer; [exact Hr|].
    intros t _. now apply index_terms_nil_frequency.
Qed.





End Degenerate.

(** ** The sample tokeniser *)

Section SampleTokenizer.
Import PyStr Sample.






End SampleTokenizer.


(** ** Range of the scores *)

Section ScoreRange.
Context {nltk : Nltk}.
Import Sklearn.
Local Open Scope R_scope.






End ScoreRange.

(** ** The stand-alone script *)

Section ScriptFacts.
Context {nltk : Nltk}.
Import PyStr Sklearn TrainingScript.

Lemma unpack2_two (p : list string) :
  List.length p <> 2 -> exists msg, unpack2 p = Raise (ValueError msg).
Proof.
  destruct p as [|a [|b [|c p]]]; simpl; intro H; try (eexists; reflexivity).
  exfalso. now apply H.
Qed.

Lemma unpack2_raises (p : list string) (e : exn) :
  unpack2 p = Raise e -> exists msg, e = ValueError msg.
Proof.
  destruct p as [|a [|b [|c p]]]; simpl; intro H; try discriminate;
    injection H as <-; eexists; reflexivity.
Qed.

Lemma unpack_pairs_raises (parts : list (list string)) (p : list string) :
  In p parts -> List.length p <> 2 ->
  exists msg, unpack_pairs parts = Raise (ValueError msg).
Proof.
  induction parts as [|p0 parts IH]; intros Hin Hlen; [contradiction|].
  simpl. destruct (unpack2 p0) as [[q a]|e] eqn:E.
  - destruct Hin as [->|Hin].
    + destruct (unpack2_two _ Hlen) as (msg & Hm). congruence.
    + destruct (IH Hin Hlen) as (msg & ->). simpl. eauto.
  - simpl. destruct (unpack2_raises _ _ E) as (msg & ->). eauto.
Qed.


End ScriptFacts.


(** * The specified properties *)

Section Claims.
Context {nltk : Nltk}.
Import PyStr Sklearn.


(** C2. Without a corpus, a vectoriser or an index every question is
    answered [None]; a file that yields no question/answer pair is not
    an error: the constructor returns, logs a warning, keeps the corpus
    empty, and every later question is answered [None]. *)
Theorem answer_none_without_corpus :
  (forall (s : state) (qs : list string),
      dataset (self s) = [] \/ vectorizer (self s) = None \/ X (self s) = None ->
      ask_all qs s = (Return (map (fun _ => None) qs), s)) /\
  (forall env p s0 content (qs : list string),
      files env (path_or_default env p) = Text content ->
      parse_lines (stripped_lines (readlines content)) [] = Return [] ->
      __init__ env p s0 =
        (Return tt,
         {| self := unloaded (path_or_default env p);
            log := log s0 ++ [warning_no_valid_lines] |}) /\
      ask_all qs (snd (__init__ env p s0)) =
        (Return (map (fun _ => None) qs), snd (__init__ env p s0))).
Proof.
  assert (Hguard : forall (s : state) (qs : list string),
      dataset (self s) = [] \/ vectorizer (self s) = None \/ X (self s) = None ->
      ask_all qs s = (Return (map (fun _ => None) qs), s)).
  { intros s qs H. apply ask_all_same. intros q _. now apply get_answer_guard. }
  split; [exact Hguard|].
  intros env p s0 content qs Hf Hp.
  rewrite (init_no_pairs _ _ _ _ Hf Hp). split; [reflexivity|].
  apply Hguard. left. reflexivity.
Qed.


(** C10. An answer that is not [None] is the answer field of the corpus
    entry at the index [argmax] selected, unchanged, and the state is
    left as it was. *)
Theorem answer_comes_from_corpus (s s' : state) (q a : string) :
  get_answer q s = (Return (Some a), s') ->
  s' = s /\
  exists v x qv sims best e,
    vectorizer (self s) = Some v /\
    X (self s) = Some x /\
    transform v [_preprocess_text q] = Return qv /\
    cosine_similarity qv x = Return sims /\
    Numpy.argmax (concat sims) = Return best /\
    nth_error (dataset (self s)) best = Some e /\
    a = answer e.
Proof.
  unfold get_answer, bind, get_self, lift, ret, raise.
  destruct (dataset (self s)) as [|d0 data] eqn:Ed; [discriminate|].
  destruct (vectorizer (self s)) as [v|]; [|discriminate].
  destruct (X (self s)) as [x|]; [|discriminate].
  destruct (transform v [_preprocess_text q]) as [qv|] eqn:Et; [|discriminate].
  destruct (cosine_similarity qv x) as [sims|] eqn:Ec; [|discriminate].
  destruct (Numpy.argmax (concat sims)) as [best|] eqn:Ea; [|discriminate].
  destruct (Numpy.index2 sims 0 best) as [score|]; [|discriminate].
  destruct (Rlt_dec score threshold); [discriminate|].
  destruct (nth_error (d0 :: data) best) as [e|] eqn:Ee; [|discriminate].
  intro H. injection H as <- <-.
  split; [reflexivity|]. exists v, x, qv, sims, best, e. auto 10.
Qed.






(** C9, amended. When the path is not a file, or the file cannot be
    read, the constructor raises nothing: it logs a warning (no file) or
    the exception (unreadable file), leaves the corpus empty without index,
    and every question is answered [None]. *)
Theorem load_failure_degrades env p s0 (qs : list string) :
  files env (path_or_default env p) = NoFile \/
  (exists e, files env (path_or_default env p) = Unreadable e) ->
  fst (__init__ env p s0) = Return tt /\
  self (snd (__init__ env p s0)) = unloaded (path_or_default env p) /\
  (log (snd (__init__ env p s0))
   = log s0 ++ [warning_not_found (path_or_default env p)] \/
   exists e, log (snd (__init__ env p s0)) = log s0 ++ [exception_failed e]) /\
  ask_all qs (snd (__init__ env p s0))
  = (Return (map (fun _ => None) qs), snd (__init__ env p s0)).
Proof.
  intros [Hf|(e & Hf)].
  - rewrite (init_no_file _ _ _ Hf). simpl. repeat split; [now left|].
    apply ask_all_same. intros q _. apply get_answer_guard. now left.
  - rewrite (init_unreadable _ _ _ _ Hf). simpl. repeat split; [right; eauto|].
    apply ask_all_same. intros q _. apply get_answer_guard. now left.
Qed.


End Claims.

(** * Further properties *)

Section Further.
Context {nltk : Nltk}.
Import PyStr Sklearn.

(** X1. In every state the constructor can leave, [get_answer] returns,
    with or without an answer, and leaves the state as it was: it raises
    nothing. *)
Theorem answer_never_raises (s : state) (q : string) :
  constructed s -> exists r, get_answer q s = (Return r, s).
Proof.
  intro Hc. destruct (constructed_cases _ Hc) as [Hx|Hr].
  - exists None. apply get_answer_guard. auto.
  - destruct (ready_first_max _ q Hr) as (best & e & Hfm & He).
    rewrite (get_answer_ready _ _ Hr), (pick_state _ _ _ Hfm), He.
    destruct (Rlt_dec _ threshold); eauto.
Qed.


(** X3. The script's loader raises on a line that does not split into
    exactly two parts, which is the case of an answer that holds a colon. *)
Theorem script_loader_rejects_second_colon env file_path content line :
  files env file_path = Text content ->
  In line (readlines content) ->
  contains colon line = true ->
  List.length (split colon (strip line)) <> 2 ->
  exists msg, TrainingScript.load_dataset env file_path = Raise (ValueError msg).
Proof.
  intros Hf Hin Hc Hlen.
  unfold TrainingScript.load_dataset, open_lines. rewrite Hf. simpl.
  apply (unpack_pairs_raises _ (split colon (strip line))); [|exact Hlen].
  unfold TrainingScript.qna_pairs.
  apply (in_map (fun l => split colon (strip l))), filter_In. auto.
Qed.


(** The answer does not depend on the case of the question. *)
Theorem answer_ignores_case (s : state) (q q' : string) :
  lower q = lower q' -> get_answer q s = get_answer q' s.
Proof.
  intro H.
  assert (Hp : _preprocess_text q = _preprocess_text q')
    by (unfold _preprocess_text, stemmed_tokens; now rewrite H).
  unfold get_answer. now rewrite Hp.
Qed.


End Further.


(** * Further properties of the matcher *)

(** ** Trimming *)

Section Trimming.
Import PyStr.


Lemma length_rstrip (s : string) : String.length (rstrip s) <= String.length s.
Proof.
  induction s as [|c s IH]; simpl; [lia|].
  destruct (rstrip s) as [|d r]; [destruct (isspace_char c)|]; simpl in *; lia.
Qed.


Lemma rstrip_fixed (s : string) :
  String.length (rstrip s) = String.length s -> rstrip s = s.
Proof.
  induction s as [|c s IH]; simpl; [reflexivity|].
  pose proof (length_rstrip s) as Hl.
  destruct (rstrip s) as [|d r] eqn:E.
  - destruct (isspace_char c); simpl; intro H.
    + simpl in Hl. lia.
    + f_equal. apply IH. simpl in *. lia.
  - simpl. intro H. f_equal. apply IH. simpl in *. lia.
Qed.








End Trimming.


(** ** Writing the corpus file and loading it *)

Section RoundTrip.
Context {nltk : Nltk}.
Import PyStr.













End RoundTrip.



(** ** The shape of the index *)

Section IndexShape.
Context {nltk : Nltk}.
Import PyStr Sklearn.

Lemma isupper_lower_char (c : ascii) : isupper_char (lower_char c) = false.
Proof.
  unfold lower_char. destruct (isupper_char c) eqn:E; [|exact E].
  unfold isupper_char in *. apply andb_true_iff in E as [H1 H2].
  apply Nat.leb_le in H1, H2.
  rewrite nat_ascii_embedding by lia.
  apply andb_false_iff. right. apply Nat.leb_gt. lia.
Qed.


Lemma length_append_char (cur : string) (c : ascii) :
  String.length (String.append cur (String c EmptyString)) = S (String.length cur).
Proof. induction cur as [|d cur IH]; simpl; [reflexivity|now rewrite IH]. Qed.




End IndexShape.


(** ** Weights and proportions *)

Section Proportions.
Context {nltk : Nltk}.
Import PyStr Sklearn.
Local Open Scope R_scope.





Lemma ln_le (x y : R) : 0 < x -> x <= y -> ln x <= ln y.
Proof.
  intros Hx [Hlt | ->]; [|lra]. left. now apply ln_increasing.
Qed.

Lemma idf_weight_antitone (docs : list string) (t t' : string) :
  (doc_frequency docs t <= doc_frequency docs t')%nat ->
  idf_weight docs t' <= idf_weight docs t.
Proof.
  intro H. unfold idf_weight.
  pose proof (pos_INR (List.length docs)) as Hn.
  pose proof (pos_INR (doc_frequency docs t)) as Hd.
  pose proof (pos_INR (doc_frequency docs t')) as Hd'.
  apply le_INR in H.
  apply Rplus_le_compat_r, ln_le.
  - apply Rdiv_lt_0_compat; lra.
  - apply Rmult_le_compat_l; [lra|].
    apply Rinv_le_contravar; lra.
Qed.

Lemma idf_weight_le (docs : list string) (t : string) :
  idf_weight docs t <= 1 + ln (1 + INR (List.length docs)).
Proof.
  unfold idf_weight.
  pose proof (pos_INR (List.length docs)) as Hn.
  pose proof (pos_INR (doc_frequency docs t)) as Hd.
  rewrite Rplus_comm. apply Rplus_le_compat_l, ln_le.
  - apply Rdiv_lt_0_compat; lra.
  - apply Rmult_le_reg_r with (1 + INR (doc_frequency docs t)); [lra|].
    unfold Rdiv. rewrite Rmult_assoc, Rinv_l by lra. nra.
Qed.

Lemma idf_weight_everywhere (docs : list string) (t : string) :
  doc_frequency docs t = List.length docs -> idf_weight docs t = 1.
Proof.
  intro H. unfold idf_weight. rewrite H.
  pose proof (pos_INR (List.length docs)) as Hn.
  unfold Rdiv. rewrite Rinv_r by lra. rewrite ln_1. ring.
Qed.

End Proportions.


(** ** The training script end to end *)

Section ScriptMind.
Context {nltk : Nltk}.
Import PyStr Sklearn.





End ScriptMind.


(** * Properties of the assistant *)

(** ** The text of a command *)

Section CommandText.
Import PyStr PyText.

Lemma lower_lower (s : string) : lower (lower s) = lower s.
Proof.
  induction s as [|c s IH]; simpl; [reflexivity|]. rewrite IH. f_equal.
  unfold lower_char at 1. now rewrite isupper_lower_char.
Qed.

Lemma isspace_lower_char (c : ascii) : isspace_char (lower_char c) = isspace_char c.
Proof.
  unfold lower_char. destruct (isupper_char c) eqn:E; [|reflexivity].
  unfold isupper_char in E. apply andb_true_iff in E as [H1 H2].
  apply Nat.leb_le in H1, H2.
  unfold isspace_char. rewrite nat_ascii_embedding by lia.
  repeat match goal with
         | |- context [?a <=? ?b] =>
             let H := fresh in destruct (Nat.leb_spec a b) as [H|H]
         end; simpl; try reflexivity; lia.
Qed.

Lemma lower_lstrip (s : string) : lower (lstrip s) = lstrip (lower s).
Proof.
  induction s as [|c s IH]; simpl; [reflexivity|].
  rewrite isspace_lower_char. destruct (isspace_char c); [exact IH|reflexivity].
Qed.

Lemma lower_rstrip (s : string) : lower (rstrip s) = rstrip (lower s).
Proof.
  induction s as [|c s IH]; simpl; [reflexivity|].
  rewrite <- IH, isspace_lower_char.
  destruct (rstrip s) as [|d r]; simpl; [destruct (isspace_char c)|]; reflexivity.
Qed.

Lemma lower_strip (s : string) : lower (strip s) = strip (lower s).
Proof. unfold strip. now rewrite lower_rstrip, lower_lstrip. Qed.

Lemma lower_slice_from (n : nat) (s : string) :
  lower (slice_from n s) = slice_from n (lower s).
Proof.
  revert s. induction n as [|n IH]; intros [|c s]; simpl; try reflexivity. apply IH.
Qed.

Lemma lstrip_lstrip (s : string) : lstrip (lstrip s) = lstrip s.
Proof.
  induction s as [|c s IH]; simpl; [reflexivity|].
  destruct (isspace_char c) eqn:E; [exact IH|]. simpl. now rewrite E.
Qed.

Lemma rstrip_rstrip (s : string) : rstrip (rstrip s) = rstrip s.
Proof.
  induction s as [|c s IH]; simpl; [reflexivity|].
  destruct (rstrip s) as [|d r] eqn:E.
  - destruct (isspace_char c) eqn:Ec; simpl; [reflexivity|now rewrite Ec].
  - simpl in *. now rewrite IH.
Qed.

Lemma lstrip_rstrip (s : string) : lstrip (rstrip s) = rstrip (lstrip s).
Proof.
  induction s as [|c s IH]; simpl; [reflexivity|].
  destruct (isspace_char c) eqn:Ec.
  - destruct (rstrip s) as [|d r] eqn:E.
    + now rewrite <- IH.
    + rewrite <- IH. simpl. now rewrite Ec.
  - simpl. destruct (rstrip s) as [|d r] eqn:E; simpl; now rewrite Ec.
Qed.

Lemma strip_strip (s : string) : strip (strip s) = strip s.
Proof.
  unfold strip. now rewrite lstrip_rstrip, rstrip_rstrip, lstrip_lstrip.
Qed.

Lemma lstrip_empty_rstrip (s : string) :
  lstrip s = EmptyString -> rstrip s = EmptyString.
Proof.
  induction s as [|c s IH]; simpl; [reflexivity|].
  destruct (isspace_char c); [|discriminate].
  intro H. now rewrite (IH H).
Qed.

Lemma strip_empty_rstrip (s : string) :
  strip s = EmptyString -> rstrip s = EmptyString.
Proof.
  unfold strip. rewrite <- lstrip_rstrip. intro H.
  apply lstrip_empty_rstrip in H. now rewrite rstrip_rstrip in H.
Qed.

Lemma rstrip_append_blank (a b : string) :
  rstrip b = EmptyString -> rstrip (String.append a b) = rstrip a.
Proof.
  intro H. induction a as [|c a IH]; simpl; [exact H|]. now rewrite IH.
Qed.

Lemma startswith_append (p s : string) :
  startswith p s = true -> s = String.append p (slice_from (String.length p) s).
Proof.
  revert s. induction p as [|a p IH]; intros s H; [reflexivity|].
  destruct s as [|b s]; [discriminate|]. simpl in *.
  apply andb_true_iff in H as [Hab Hp].
  apply Ascii.eqb_eq in Hab. subst b. f_equal. now apply IH.
Qed.

(** After "open " a stripped command names something. *)
Lemma open_target_named (s : string) :
  startswith "open " (strip s) = true ->
  strip (slice_from 5 (strip s)) <> EmptyString.
Proof.
  intros H Hz. apply startswith_append in H. simpl String.length in H.
  apply strip_empty_rstrip in Hz.
  assert (Hr : rstrip (strip s) = strip s)
    by (unfold strip; apply rstrip_rstrip).
  rewrite H in Hr at 1. rewrite (rstrip_append_blank _ _ Hz) in Hr.
  apply (f_equal String.length) in Hr. rewrite H in Hr.
  change (rstrip "open ") with "open" in Hr.
  simpl in Hr. lia.
Qed.

Lemma open_target_tidy (command : string) :
  startswith "open " (strip (lower command)) = true ->
  Isha.tidy (strip (slice_from 5 (strip (lower command)))) = true.
Proof.
  intro H. unfold Isha.tidy.
  rewrite strip_strip, String.eqb_refl.
  rewrite lower_strip, lower_slice_from, lower_strip, lower_lower, String.eqb_refl.
  destruct (strip (slice_from 5 (strip (lower command)))) eqn:E; [|reflexivity].
  now apply open_target_named in H.
Qed.

End CommandText.


(** ** Command processing *)

Section Commands.
Context {nltk : Nltk}.
Import PyStr PyText Isha.

Lemma get_answer_constructed (s : state) (q : string) :
  constructed s -> exists r, get_answer q s = (Return r, s).
Proof.
  intro Hc. destruct (constructed_cases _ Hc) as [Hx|Hr].
  - exists None. apply get_answer_guard. auto.
  - destruct (ready_first_max _ q Hr) as (best & e & Hfm & He).
    rewrite (get_answer_ready _ _ Hr), (pick_state _ _ _ Hfm), He.
    destruct (Rlt_dec _ threshold); eauto.
Qed.

Lemma traced_nil (m : machine) : traced m [] = m.
Proof. destruct m. unfold traced. simpl. now rewrite app_nil_r. Qed.

Lemma traced_traced (m : machine) (a b : list event) :
  traced (traced m a) b = traced m (a ++ b).
Proof. unfold traced. simpl. now rewrite app_assoc. Qed.

Lemma occur_traced (e : event) (m : machine) : occur e m = (Return tt, traced m [e]).
Proof. reflexivity. Qed.

Lemma reply_traced (resp : string) (m : machine) :
  reply resp m = (Return resp, traced m [say resp]).
Proof. reflexivity. Qed.

Lemma qna_get_answer_run (q : string) (m : machine) (r : option string) :
  get_answer q (brain m) = (Return r, brain m) ->
  qna_get_answer q m = (Return r, m).
Proof.
  intro H. unfold qna_get_answer. rewrite H. now destruct m.
Qed.

Lemma and_then_run {A B : Type} (f : IO A) (k : A -> IO B) (m m' : machine) (a : A) :
  f m = (Return a, m') -> and_then f k m = k a m'.
Proof. intro H. unfold and_then. now rewrite H. Qed.

Lemma and_then_occur {B : Type} (e : event) (k : unit -> IO B) (m : machine) :
  and_then (occur e) k m = k tt (traced m [e]).
Proof. reflexivity. Qed.

(** The run of [process_command] when the matcher returns. *)
Lemma process_command_run (w : world) (command : string) (m : machine) :
  constructed (brain m) ->
  exists evs resp,
    process_command w command m = (Return resp, traced m (evs ++ [say resp])) /\
    forallb command_event evs = true /\
    resp <> EmptyString.
Proof.
  intro Hc. unfold process_command, logging_info.
  destruct (truthy command) eqn:Ht; cbn [negb]; cbv iota.
  2:{ exists [], "No command received.". repeat split; discriminate. }
  set (cmd := strip (lower command)).
  rewrite and_then_occur.
  destruct (startswith "open " cmd) eqn:Hopen.
  { pose proof (open_target_tidy _ Hopen) as Htidy. fold cmd in Htidy.
    set (target := strip (slice_from 5 cmd)) in *.
    destruct (startswith "http" target).
    - rewrite and_then_occur.
      destruct (webbrowser_open w target); rewrite reply_traced, !traced_traced;
        eexists [_; _], _; (split; [reflexivity|split; [simpl; now rewrite Htidy|]]).
      + discriminate.
      + discriminate.
    - destruct (startswith "win" (platform w));
        [rewrite (and_then_run _ _ _ (traced (traced m [logged INFO ("Processing command: " ++ cmd)%string]) [file_started target]) (startfile w target)) by reflexivity
        |rewrite (and_then_run _ _ _ (traced (traced m [logged INFO ("Processing command: " ++ cmd)%string]) [process_spawned ["xdg-open"; target]]) (popen w ["xdg-open"; target])) by reflexivity].
      + destruct (startfile w target); rewrite reply_traced, !traced_traced;
          eexists [_; _], _; (split; [reflexivity|split; [simpl; now rewrite Htidy|]]);
          discriminate.
      + destruct (popen w ["xdg-open"; target]); rewrite reply_traced, !traced_traced;
          eexists [_; _], _; (split; [reflexivity|split; [simpl; now rewrite Htidy|]]);
          discriminate. }
  destruct (substring_in "time" cmd && (List.length (split_whitespace cmd) <=? 3)).
  { rewrite reply_traced, traced_traced. eexists [_], _.
    repeat split; discriminate. }
  destruct (substring_in "date" cmd && (List.length (split_whitespace cmd) <=? 3)).
  { rewrite reply_traced, traced_traced. eexists [_], _.
    repeat split; discriminate. }
  destruct (substring_in "who are you" cmd || substring_in "your name" cmd).
  { rewrite reply_traced, traced_traced. eexists [_], _.
    repeat split; discriminate. }
  destruct (get_answer_constructed _ cmd Hc) as (r & Hr).
  rewrite (and_then_run _ _ _ _ r (qna_get_answer_run cmd (traced m _) r Hr)).
  destruct r as [a|].
  - destruct (truthy a) eqn:Ha; rewrite reply_traced, traced_traced; eexists [_], _;
      (split; [reflexivity|split; [reflexivity|]]).
    + intros ->. discriminate.
    + discriminate.
  - rewrite reply_traced, traced_traced. eexists [_], _.
    repeat split; discriminate.
Qed.

End Commands.


(** ** Microphone and voice *)

Section Voice.
Context {nltk : Nltk}.
Import PyStr PyText Isha.

Lemma and_then_pure {A B : Type} (a : A) (k : A -> IO B) (m : machine) :
  and_then (pure a) k m = k a m.
Proof. reflexivity. Qed.

Lemma and_then_assoc {A B C : Type} (f : IO A) (g : A -> IO B) (k : B -> IO C)
    (m : machine) :
  and_then (and_then f g) k m = and_then f (fun a => and_then (g a) k) m.
Proof. unfold and_then. destruct (f m) as [[a|e] m']; reflexivity. Qed.

Lemma print_names_run (names : list string) :
  forall i m, exists evs,
    print_names i names m = (Return tt, traced m evs) /\
    existsb is_say evs = false.
Proof.
  induction names as [|n names IH]; intros i m; cbn [print_names].
  - exists []. now rewrite traced_nil.
  - unfold print. rewrite and_then_occur.
    destruct (IH (S i) (traced m [printed (String.append (str_nat i) (String.append ": " n))]))
      as (evs & Hrun & Hs).
    cbv beta. rewrite Hrun, traced_traced. eexists. split; [reflexivity|]. exact Hs.
Qed.

Lemma same_settings_refl (a : IshaAssistant) : same_settings a a.
Proof. repeat split. Qed.

Lemma same_settings_trans (a b c : IshaAssistant) :
  same_settings a b -> same_settings b c -> same_settings a c.
Proof.
  unfold same_settings. intros H1 H2.
  repeat match goal with H : _ /\ _ |- _ => destruct H end.
  repeat split; congruence.
Qed.

Lemma frame_refl (m : machine) : frame m m.
Proof.
  split; [reflexivity|]. split; [apply same_settings_refl|].
  exists []. now rewrite app_nil_r.
Qed.

Lemma frame_trans (m1 m2 m3 : machine) : frame m1 m2 -> frame m2 m3 -> frame m1 m3.
Proof.
  intros (Hb1 & Hs1 & e1 & Ht1) (Hb2 & Hs2 & e2 & Ht2).
  split; [congruence|]. split; [eapply same_settings_trans; eassumption|].
  exists (e1 ++ e2). rewrite Ht2, Ht1. now rewrite app_assoc.
Qed.

Lemma frame_traced (m : machine) (evs : list event) : frame m (traced m evs).
Proof.
  split; [reflexivity|]. split; [apply same_settings_refl|]. now exists evs.
Qed.

Lemma frame_set_microphone (mic : option Microphone) (m : machine) :
  frame m (snd (set_microphone mic m)).
Proof.
  split; [reflexivity|]. split; [repeat split|].
  exists []. simpl. now rewrite app_nil_r.
Qed.

Lemma frame_set_is_listening (b : bool) (m : machine) :
  frame m (snd (set_is_listening b m)).
Proof.
  split; [reflexivity|]. split; [repeat split|].
  exists []. simpl. now rewrite app_nil_r.
Qed.

Lemma selection_failed_run (e : string) (m : machine) :
  selection_failed e m =
    (Return None,
     traced m [logged WARNING (String.append "Microphone selection failed: " e);
               say "Invalid selection."]).
Proof.
  unfold selection_failed, logging_warning, speak.
  rewrite !and_then_occur, traced_traced. reflexivity.
Qed.

(** [select_microphone] returns; it changes nothing but the microphone,
    which it sets or leaves. *)
Lemma select_microphone_frame (w : world) (m : machine) :
  exists r m',
    select_microphone w m = (Return r, m') /\
    frame m m' /\
    is_listening (assistant m') = is_listening (assistant m) /\
    (microphone (assistant m') = microphone (assistant m) \/
     microphone (assistant m') <> None).
Proof.
  unfold select_microphone.
  destruct (match list_microphone_names w with done ns => ns | failed _ => [] end)
    as [|n0 names].
  { unfold speak. rewrite and_then_occur. unfold pure.
    eexists _, _. split; [reflexivity|].
    split; [apply frame_traced|]. auto. }
  unfold print. rewrite and_then_occur.
  destruct (print_names_run (n0 :: names) 0
              (traced m [printed "Available microphones:"])) as (evs & Hrun & _).
  rewrite (and_then_run _ _ _ _ _ Hrun), traced_traced, and_then_occur, traced_traced.
  destruct (read_index w) as [idx|e].
  2:{ rewrite selection_failed_run, traced_traced.
      eexists _, _. split; [reflexivity|]. split; [apply frame_traced|]. auto. }
  destruct ((0 <=? idx)%Z && (idx <? Z.of_nat (List.length (n0 :: names)))%Z).
  2:{ unfold pure. eexists _, _. split; [reflexivity|].
      split; [apply frame_traced|]. auto. }
  destruct (open_microphone w (Some (Z.to_nat idx))) as [[]|e].
  2:{ rewrite selection_failed_run, traced_traced.
      eexists _, _. split; [reflexivity|]. split; [apply frame_traced|]. auto. }
  match goal with
  | |- context [and_then (set_microphone ?mic) ?k ?m0] =>
      rewrite (and_then_run (set_microphone mic) k m0 (snd (set_microphone mic m0)) tt)
        by reflexivity;
      pose proof (frame_trans _ _ _ (frame_traced m _) (frame_set_microphone mic m0)) as Hf;
      set (m1 := snd (set_microphone mic m0)) in *
  end.
  assert (Hl : is_listening (assistant m1) = is_listening (assistant m)) by reflexivity.
  assert (Hm : microphone (assistant m1) <> None) by discriminate.
  clearbody m1.
  destruct (calibrate w _) as [[]|e].
  - unfold speak. rewrite and_then_occur. unfold and_then, get_assistant, pure.
    eexists _, _. split; [reflexivity|].
    split; [exact (frame_trans _ _ _ Hf (frame_traced m1 _))|]. split; [exact Hl|].
    right. exact Hm.
  - rewrite selection_failed_run.
    eexists _, _. split; [reflexivity|].
    split; [exact (frame_trans _ _ _ Hf (frame_traced m1 _))|]. split; [exact Hl|].
    right. exact Hm.
Qed.

Lemma switch_listening_run (m : machine) :
  exists m',
    switch_listening m = (Return "ok", m') /\
    frame m m' /\
    microphone (assistant m') = microphone (assistant m) /\
    is_listening (assistant m') = negb (is_listening (assistant m)).
Proof.
  unfold switch_listening.
  rewrite (and_then_run get_assistant _ m m (assistant m)) by reflexivity.
  match goal with
  | |- context [and_then (set_is_listening ?b) ?k ?m0] =>
      rewrite (and_then_run (set_is_listening b) k m0 (snd (set_is_listening b m0)) tt)
        by reflexivity;
      pose proof (frame_set_is_listening b m0) as Hf;
      assert (Hm : microphone (assistant (snd (set_is_listening b m0)))
                   = microphone (assistant m0)) by reflexivity;
      assert (Hl : is_listening (assistant (snd (set_is_listening b m0))) = b)
        by reflexivity;
      set (m1 := snd (set_is_listening b m0)) in *
  end.
  clearbody m1.
  rewrite (and_then_run get_assistant _ m1 m1 (assistant m1)) by reflexivity.
  destruct (is_listening (assistant m1)) eqn:E; unfold speak;
    rewrite ?and_then_assoc, !and_then_occur; cbv beta;
    rewrite ?and_then_occur, ?traced_traced; unfold pure;
    (eexists; split; [reflexivity|]);
    (split; [exact (frame_trans _ _ _ Hf (frame_traced m1 _))|]);
    (split; [exact Hm|]); cbn [traced assistant]; rewrite E; exact Hl.
Qed.

(** [toggle_voice] returns; a microphone once set stays, and listening is
    never on without one. *)
Lemma toggle_voice_frame (w : world) (m : machine) :
  exists res m',
    toggle_voice w m = (Return res, m') /\
    frame m m' /\
    (microphone (assistant m) <> None -> microphone (assistant m') <> None) /\
    ((is_listening (assistant m) = true -> microphone (assistant m) <> None) ->
     is_listening (assistant m') = true -> microphone (assistant m') <> None).
Proof.
  unfold toggle_voice.
  rewrite (and_then_run get_assistant _ m m (assistant m)) by reflexivity.
  destruct (microphone (assistant m)) as [mic|] eqn:Em.
  - destruct (switch_listening_run m) as (m' & -> & Hf & Hm & Hl).
    exists "ok", m'. split; [reflexivity|]. split; [exact Hf|].
    rewrite Hm, Em. split; intros; discriminate.
  - destruct (select_microphone_frame w m) as (r & m1 & Hrun & Hf & Hl & Hm).
    rewrite (and_then_run _ _ _ _ _ Hrun).
    rewrite (and_then_run get_assistant _ m1 m1 (assistant m1)) by reflexivity.
    destruct (microphone (assistant m1)) as [mic|] eqn:Em1.
    + destruct (switch_listening_run m1) as (m' & -> & Hf' & Hm' & Hl').
      exists "ok", m'. split; [reflexivity|].
      split; [exact (frame_trans _ _ _ Hf Hf')|].
      rewrite Hm', Em1. split; intros; discriminate.
    + exists "no-mic", m1. split; [reflexivity|]. split; [exact Hf|].
      split; [congruence|]. intros H Hl1. rewrite Hl in Hl1. now apply H in Hl1.
Qed.

Lemma listen_once_run (w : world) (m : machine) :
  exists r evs,
    listen_once w m = (Return r, traced m evs) /\
    (r <> None -> microphone (assistant m) <> None).
Proof.
  unfold listen_once.
  rewrite (and_then_run get_assistant _ m m (assistant m)) by reflexivity.
  destruct (microphone (assistant m)) as [mic|].
  - destruct (listen_and_recognize w mic);
      unfold logging_info, logging_error, logging_exception;
      rewrite and_then_occur; unfold pure; eexists _, _;
      (split; [reflexivity|discriminate]).
  - exists None, []. rewrite traced_nil. split; [reflexivity|congruence].
Qed.

End Voice.


(** ** The server and the running assistant *)

Section Server.
Context {nltk : Nltk}.
Variable html : string.
Import PyStr PyText Isha.

Lemma send_headers_run (headers : list (string * string)) (m : machine) :
  send_headers headers m =
    (Return tt, traced m (map (fun kv => header_sent (fst kv) (snd kv)) headers)).
Proof.
  revert m. induction headers as [|[k v] hs IH]; intro m; cbn [send_headers map fst snd].
  - now rewrite traced_nil.
  - rewrite and_then_occur. cbv beta. now rewrite IH, traced_traced.
Qed.

Lemma respond_run (code : nat) (headers : list (string * string)) (body : string)
    (m : machine) :
  respond code headers body m = (Return tt, traced m (response code headers body)).
Proof.
  unfold respond, response. rewrite and_then_occur. cbv beta.
  rewrite (and_then_run _ _ _ _ _ (send_headers_run headers _)).
  rewrite and_then_occur. cbv beta. rewrite occur_traced, !traced_traced.
  reflexivity.
Qed.

Lemma steady_frame (m m' : machine) :
  steady m -> frame m m' ->
  (is_listening (assistant m') = true -> microphone (assistant m') <> None) ->
  steady m'.
Proof.
  intros (Hp & Hq & Ht & Hs & _ & Hc) (Hb & Hset & _) Hl.
  destruct Hset as (H1 & H2 & _ & H4 & H5 & _).
  unfold steady. rewrite Hb, H1, H2, H4, H5. auto 10.
Qed.

Lemma steady_traced (m : machine) (evs : list event) : steady m -> steady (traced m evs).
Proof. intro H. exact H. Qed.

(** The answer to a request for [/command]. *)
Lemma do_GET_command (w : world) (r : request) (m : machine) :
  steady m -> parsed_path r = "/command" ->
  match qs_get_first "cmd" (query r) with
  | Some (String c rest) =>
      exists evs resp,
        process_command w (String c rest) m = (Return resp, traced m (evs ++ [say resp])) /\
        forallb command_event evs = true /\ resp <> EmptyString /\
        do_GET w r m =
          (Return tt,
           traced m (evs ++ [say resp] ++
                     response 200 [("Content-type", "text/plain; charset=utf-8")] resp))
  | _ => do_GET w r m = (Return tt, traced m (response 400 [] "Missing cmd param."))
  end.
Proof.
  intros Hs Hp. unfold do_GET. rewrite Hp. cbn [String.eqb Ascii.eqb Bool.eqb].
  change (("/command" =? "/")%string) with false.
  change (("/command" =? "/command")%string) with true. cbv iota.
  destruct (qs_get_first "cmd" (query r)) as [[|c rest]|].
  1, 3: apply respond_run.
  rewrite (and_then_run get_assistant _ m m (assistant m)) by reflexivity.
  destruct Hs as (Hpend & _ & _ & _ & _ & Hc). rewrite Hpend.
  destruct (process_command_run w (String c rest) m Hc) as (evs & resp & Hrun & Hev & Hne).
  exists evs, resp. rewrite Hrun, respond_run, traced_traced, <- app_assoc. auto.
Qed.

(** [do_GET] returns and keeps the assistant steady. *)
Lemma do_GET_steady (w : world) (r : request) (m : machine) :
  steady m ->
  exists m', do_GET w r m = (Return tt, m') /\ frame m m' /\ steady m'.
Proof.
  intro Hs.
  destruct (String.eqb (parsed_path r) "/command") eqn:Ec.
  { apply String.eqb_eq in Ec. pose proof (do_GET_command w r m Hs Ec) as H.
    destruct (qs_get_first "cmd" (query r)) as [[|c rest]|].
    1, 3: eexists; split; [exact H|]; split; [apply frame_traced|exact Hs].
    destruct H as (evs & resp & _ & _ & _ & H).
    eexists; split; [exact H|]; split; [apply frame_traced|exact Hs]. }
  unfold do_GET. rewrite Ec.
  destruct (String.eqb (parsed_path r) "/").
  { destruct (files (env w) (dashboard_file w)); rewrite respond_run;
      eexists; (split; [reflexivity|]); (split; [apply frame_traced|exact Hs]). }
  destruct (String.eqb (parsed_path r) "/voice").
  - destruct (toggle_voice_frame w m) as (res & m1 & Hrun & Hf & _ & Hl).
    rewrite (and_then_run _ _ _ _ _ Hrun), respond_run.
    assert (Hs1 : steady m1).
    { apply (steady_frame m m1 Hs Hf). apply Hl. apply Hs. }
    eexists. split; [reflexivity|].
    split; [exact (frame_trans _ _ _ Hf (frame_traced m1 _))|exact Hs1].
  - rewrite and_then_occur. cbv beta. rewrite occur_traced, traced_traced.
    eexists. split; [reflexivity|]. split; [apply frame_traced|exact Hs].
Qed.

Lemma _listen_loop_steady (ws : list world) :
  forall m, steady m ->
  exists evs, _listen_loop ws m = (Return tt, traced m evs).
Proof.
  induction ws as [|w ws IH]; intros m Hs; cbn [_listen_loop].
  - exists []. now rewrite traced_nil.
  - rewrite (and_then_run get_assistant _ m m (assistant m)) by reflexivity.
    destruct (is_listening (assistant m)).
    2:{ exists []. now rewrite traced_nil. }
    destruct (listen_once_run w m) as (r & evs & Hrun & _).
    rewrite (and_then_run _ _ _ _ _ Hrun).
    destruct r as [[|c cmd]|].
    1, 3: destruct (IH (traced m evs) Hs) as (evs' & ->);
          rewrite traced_traced; eauto.
    assert (Hc : constructed (brain (traced m evs))) by apply Hs.
    destruct (process_command_run w (String c cmd) (traced m evs) Hc)
      as (evs1 & resp & Hrun1 & _).
    rewrite (and_then_run _ _ _ _ _ Hrun1), traced_traced.
    destruct (IH (traced m (evs ++ evs1 ++ [say resp])) Hs) as (evs' & ->).
    rewrite traced_traced. eauto.
Qed.

(** Every method call returns and keeps the assistant steady. *)
Lemma perform_steady (w : world) (a : action) (m : machine) :
  steady m ->
  exists m', perform w a m = (Return tt, m') /\ frame m m' /\ steady m'.
Proof.
  intro Hs. destruct a as [r| |ws]; cbn [perform].
  - now apply do_GET_steady.
  - destruct (toggle_voice_frame w m) as (res & m1 & Hrun & Hf & _ & Hl).
    rewrite (and_then_run _ _ _ _ _ Hrun). unfold pure.
    exists m1. split; [reflexivity|]. split; [exact Hf|].
    apply (steady_frame m m1 Hs Hf). apply Hl. apply Hs.
  - destruct (_listen_loop_steady ws m Hs) as (evs & ->).
    eexists. split; [reflexivity|]. split; [apply frame_traced|exact Hs].
Qed.

End Server.

(** ** Construction of the assistant *)

Section Startup.
Context {nltk : Nltk}.
Variable html : string.
Import PyStr PyText Isha.





Lemma run_steady (m0 m : machine) : steady m0 -> run m0 m -> steady m.
Proof.
  intros H0 Hr. induction Hr as [|m w a _ IH]; [exact H0|].
  destruct (perform_steady w a m IH) as (m' & Hrun & _ & Hs). now rewrite Hrun.
Qed.

Lemma run_frame (m0 m : machine) : steady m0 -> run m0 m -> frame m0 m.
Proof.
  intros H0 Hr. induction Hr as [|m w a Hr IH]; [apply frame_refl|].
  destruct (perform_steady w a m (run_steady _ _ H0 Hr)) as (m' & Hrun & Hf & _).
  rewrite Hrun. exact (frame_trans _ _ _ IH Hf).
Qed.


End Startup.

(** * Further properties: weights, proportions, the script *)

Section FurtherMatcher.
Context {nltk : Nltk}.
Import PyStr Sklearn.


(** X8. The weights of the index are the smoothed inverse document
    frequencies of its terms; they lie between 1 and 1 + ln (1 + N) for a
    corpus of N entries, a term found in no more entries than another
    weighs at least as much, and a term found in every entry weighs 1. *)
Theorem rarer_terms_weigh_more (data : list qa) :
  index_idf data = map (idf_weight (corpus_of data)) (index_vocabulary data) /\
  (forall t, 1 <= idf_weight (corpus_of data) t
                <= 1 + ln (1 + INR (List.length data)))%R /\
  (forall t t',
      doc_frequency (corpus_of data) t <= doc_frequency (corpus_of data) t' ->
      (idf_weight (corpus_of data) t' <= idf_weight (corpus_of data) t)%R) /\
  (forall t,
      doc_frequency (corpus_of data) t = List.length data ->
      idf_weight (corpus_of data) t = 1%R).
Proof.
  assert (Hn : List.length (corpus_of data) = List.length data)
    by (unfold corpus_of; apply length_map).
  split; [apply index_idf_weights|].
  split; [|split].
  - intro t. split; [apply idf_weight_ge_1|].
    rewrite <- Hn. apply idf_weight_le.
  - intros t t'. apply idf_weight_antitone.
  - intros t Ht. apply idf_weight_everywhere. now rewrite Hn.
Qed.



End FurtherMatcher.

(** * Further properties: the assistant *)

Section FurtherAssistant.
Context {nltk : Nltk}.
Variable html : string.
Import PyStr PyText Isha.

(** X11. [process_command] with a constructed matcher returns a reply that is
    not empty and speaks it, last and once; before that it only writes to
    the log and hands a target to the browser or the launcher, a target
    that is not empty, has no white space around it and no upper-case
    letter; it leaves the assistant and the matcher as they were. *)
Theorem command_reply_is_spoken (w : world) (command : string) (m : machine) :
  constructed (brain m) ->
  exists evs resp,
    process_command w command m = (Return resp, traced m (evs ++ [say resp])) /\
    forallb command_event evs = true /\
    resp <> EmptyString.
Proof. apply process_command_run. Qed.

(** X12. A command of white space only is not taken as missing: it goes to
    the matcher, which has no answer, and is echoed. *)
Theorem blank_command_echoed (w : world) (command : string) (m : machine) :
  constructed (brain m) ->
  index_terms EmptyString = [] ->
  command <> EmptyString ->
  strip (lower command) = EmptyString ->
  process_command w command m =
    (Return (String.append "I didn't find a specific answer. You said: " command),
     traced m [logged INFO "Processing command: ";
               say (String.append "I didn't find a specific answer. You said: " command)]).
Proof.
  intros Hc Ht Hne Hb. unfold process_command, logging_info.
  destruct command as [|c command]; [congruence|].
  cbn [truthy negb]. cbv iota. rewrite Hb.
  rewrite and_then_occur. cbv beta.
  change (startswith "open " EmptyString) with false.
  change (substring_in "time" EmptyString) with false.
  change (substring_in "date" EmptyString) with false.
  change (substring_in "who are you" EmptyString) with false.
  change (substring_in "your name" EmptyString) with false.
  cbn [andb orb]. cbv iota.
  pose proof (no_terms_answer _ EmptyString Hc Ht) as Ha.
  rewrite (and_then_run _ _ _ _ None (qna_get_answer_run EmptyString (traced m _) None Ha)).
  rewrite reply_traced, traced_traced. reflexivity.
Qed.




End FurtherAssistant.

(** * Further properties: microphone, probe and voice file *)

Section FurtherDevices.
Context {nltk : Nltk}.
Import PyStr PyText Isha.

Lemma select_prompted (w : world) (n0 : string) (names : list string) (m : machine) :
  list_microphone_names w = done (n0 :: names) ->
  exists evs,
    existsb is_say evs = false /\
    select_microphone w m =
      match read_index w with
      | failed e => selection_failed e
      | done idx =>
          if ((0 <=? idx)%Z && (idx <? Z.of_nat (List.length (n0 :: names)))%Z)%bool then
            match open_microphone w (Some (Z.to_nat idx)) with
            | failed e => selection_failed e
            | done _ =>
                let mic := {| device_index := Some (Z.to_nat idx) |} in
                and_then (set_microphone (Some mic)) (fun _ =>
                  match calibrate w mic with
                  | failed e => selection_failed e
                  | done _ =>
                      and_then
                        (speak (String.append "Selected microphone: "
                                  (nth (Z.to_nat idx) (n0 :: names) EmptyString)))
                        (fun _ => and_then get_assistant (fun a => pure (microphone a)))
                  end)
            end
          else pure None
      end (traced m evs).
Proof.
  intro Hn. unfold select_microphone. rewrite Hn.
  unfold print. rewrite and_then_occur. cbv beta.
  destruct (print_names_run (n0 :: names) 0
              (traced m [printed "Available microphones:"])) as (evs & Hrun & Hs).
  rewrite (and_then_run _ _ _ _ _ Hrun), traced_traced, and_then_occur, traced_traced.
  eexists. split; [|reflexivity].
  cbn [app existsb is_say orb]. rewrite existsb_app, Hs. reflexivity.
Qed.

(** X16. When the microphone that was chosen cannot be calibrated,
    [select_microphone] says that the selection is invalid, but the
    microphone stays set: [toggle_voice] goes on, switches listening and
    answers "ok". *)
Theorem toggle_voice_after_failed_calibration (w : world) (m : machine)
    (names : list string) (idx : Z) (e : string) :
  microphone (assistant m) = None ->
  list_microphone_names w = done names ->
  read_index w = done idx ->
  (0 <= idx < Z.of_nat (List.length names))%Z ->
  open_microphone w (Some (Z.to_nat idx)) = done tt ->
  calibrate w {| device_index := Some (Z.to_nat idx) |} = failed e ->
  exists m' evs,
    toggle_voice w m = (Return "ok", m') /\
    microphone (assistant m') = Some {| device_index := Some (Z.to_nat idx) |} /\
    is_listening (assistant m') = negb (is_listening (assistant m)) /\
    trace m' = trace m ++ evs /\
    In (say "Invalid selection.") evs.
Proof.
  intros Hm Hn Hi Hr Ho Hc.
  destruct names as [|n0 names]; [simpl in Hr; lia|].
  unfold toggle_voice.
  rewrite (and_then_run get_assistant _ m m (assistant m)) by reflexivity.
  rewrite Hm.
  destruct (select_prompted w n0 names m Hn) as (evs & _ & Hsel).
  assert (Hrange : ((0 <=? idx)%Z && (idx <? Z.of_nat (List.length (n0 :: names)))%Z)%bool
                   = true).
  { apply andb_true_iff. split; [apply Z.leb_le|apply Z.ltb_lt]; lia. }
  rewrite Hi, Hrange, Ho in Hsel. cbv zeta in Hsel. cbv beta iota in Hsel.
  set (mic := {| device_index := Some (Z.to_nat idx) |}) in *.
  rewrite (and_then_run (set_microphone (Some mic)) _ (traced m evs)
             (snd (set_microphone (Some mic) (traced m evs))) tt) in Hsel by reflexivity.
  rewrite Hc, selection_failed_run in Hsel.
  rewrite (and_then_run _ _ _ _ _ Hsel).
  set (m1 := traced (snd (set_microphone (Some mic) (traced m evs))) _) in *.
  rewrite (and_then_run get_assistant _ m1 m1 (assistant m1)) by reflexivity.
  change (microphone (assistant m1)) with (Some mic). cbv iota.
  destruct (switch_listening_run m1) as (m' & Hrun & (_ & _ & evs' & Ht) & Hmic & Hl).
  exists m'. eexists. split; [exact Hrun|].
  split; [exact Hmic|]. split; [exact Hl|].
  split.
  - rewrite Ht. unfold m1. cbn [traced trace snd set_microphone and_then get_assistant
                                 set_assistant].
    rewrite <- !app_assoc. reflexivity.
  - apply in_or_app. right. apply in_or_app. left. right. now left.
Qed.

(** X17. When the index typed at the console is out of range,
    [select_microphone] says nothing and sets nothing: [toggle_voice]
    answers "no-mic" without a word. *)
Theorem toggle_voice_index_out_of_range (w : world) (m : machine)
    (n0 : string) (names : list string) (idx : Z) :
  microphone (assistant m) = None ->
  list_microphone_names w = done (n0 :: names) ->
  read_index w = done idx ->
  (idx < 0 \/ Z.of_nat (List.length (n0 :: names)) <= idx)%Z ->
  exists evs,
    toggle_voice w m = (Return "no-mic", traced m evs) /\
    existsb is_say evs = false.
Proof.
  intros Hm Hn Hi Hr.
  unfold toggle_voice.
  rewrite (and_then_run get_assistant _ m m (assistant m)) by reflexivity.
  rewrite Hm.
  destruct (select_prompted w n0 names m Hn) as (evs & Hs & Hsel).
  assert (Hrange : ((0 <=? idx)%Z && (idx <? Z.of_nat (List.length (n0 :: names)))%Z)%bool
                   = false).
  { apply andb_false_iff. destruct Hr; [left; apply Z.leb_gt|right; apply Z.ltb_ge]; lia. }
  rewrite Hi, Hrange in Hsel. unfold pure in Hsel.
  rewrite (and_then_run _ _ _ _ _ Hsel).
  rewrite (and_then_run get_assistant _ _ _ (assistant m)) by reflexivity.
  rewrite Hm. exists evs. split; [reflexivity|exact Hs].
Qed.

Lemma probe_run (w : world) (targets : list (string * nat)) :
  forall m, exists b m',
    probe w targets m = (Return b, m') /\
    internet_status (assistant m') = b /\
    last_internet_check (assistant m') = last_internet_check (assistant m) /\
    internet_check_interval (assistant m') = internet_check_interval (assistant m).
Proof.
  induction targets as [|[h p] rest IH]; intro m; cbn [probe].
  - eexists _, _. split; [reflexivity|]. auto.
  - rewrite and_then_occur. cbv beta.
    destruct (create_connection w h p).
    + eexists _, _. split; [reflexivity|]. auto.
    + destruct (IH (traced m [connection_tried h p])) as (b & m' & Hrun & H).
      exists b, m'. split; [exact Hrun|exact H].
Qed.

(** X18. A probe is remembered: a call of [check_internet] that comes within
    the interval after one that probed makes no connection, changes
    nothing and returns what the probe returned. *)
Theorem check_internet_remembers (w1 w2 : world) (m : machine) :
  (internet_check_interval (assistant m)
   <= time w1 - last_internet_check (assistant m))%R ->
  (time w2 - time w1 < internet_check_interval (assistant m))%R ->
  exists b m1,
    check_internet w1 m = (Return b, m1) /\
    check_internet w2 m1 = (Return b, m1).
Proof.
  intros H1 H2. unfold check_internet.
  rewrite (and_then_run get_assistant _ m m (assistant m)) by reflexivity.
  destruct (Rlt_dec _ _) as [Hlt|_]; [lra|].
  rewrite (and_then_run (set_last_internet_check (time w1)) _ m
             (snd (set_last_internet_check (time w1) m)) tt) by reflexivity.
  destruct (probe_run w1 [("8.8.8.8", 53); ("1.1.1.1", 53)]
              (snd (set_last_internet_check (time w1) m)))
    as (b & m1 & Hrun & Hs & Hl & Hi).
  exists b, m1. split; [exact Hrun|].
  rewrite (and_then_run get_assistant _ m1 m1 (assistant m1)) by reflexivity.
  rewrite Hl, Hi, Hs. cbn [snd set_last_internet_check and_then get_assistant
                            set_assistant assistant last_internet_check
                            internet_check_interval].
  destruct (Rlt_dec _ _) as [_|Hge]; [reflexivity|contradiction].
Qed.

(** X19. [amain] always tries to remove the output file, whatever failed
    before: afterwards the file is there only if removing it failed, which
    is then printed; no other path is touched. A file that was there
    before is removed as well. *)
Theorem amain_removes_output_file (w : Mouth.backend) (TEXT output_file : string)
    (s : Mouth.scene) :
  (Mouth.os_path_exists (Mouth.amain w TEXT output_file s) output_file = true ->
   exists e,
     Mouth.os_remove w output_file = failed e /\
     In (String.append "Error removing file: " e)
        (Mouth.printed (Mouth.amain w TEXT output_file s))) /\
  (forall p, p <> output_file ->
     Mouth.os_path_exists (Mouth.amain w TEXT output_file s) p
     = Mouth.os_path_exists s p).
Proof.
  unfold Mouth.amain.
  set (tried := match Mouth.Communicate w TEXT Mouth.VOICE with
                | done _ => _
                | failed _ => _
                end).
  assert (Hother : forall p, p <> output_file ->
                             Mouth.os_path_exists tried p = Mouth.os_path_exists s p).
  { intros p Hp. apply String.eqb_neq in Hp. unfold tried.
    destruct (Mouth.Communicate w TEXT Mouth.VOICE); [|reflexivity].
    destruct (Mouth.save w output_file) as [|e [|]];
      [destruct (Mouth.thread_start w); [unfold Mouth.play_audio;
         destruct (Mouth.pygame_play w output_file)|]| |];
      cbn; rewrite ?Hp; reflexivity. }
  clearbody tried. unfold Mouth.remove_file.
  destruct (Mouth.os_path_exists tried output_file) eqn:Ex.
  - destruct (Mouth.os_remove w output_file) as [[]|e].
    + split.
      * cbn. rewrite String.eqb_refl. discriminate.
      * intros p Hp. cbn. apply String.eqb_neq in Hp as Hp'. rewrite Hp'. now apply Hother.
    + split.
      * intros _. exists e. split; [reflexivity|]. cbn. apply in_or_app. right. now left.
      * intros p Hp. cbn. now apply Hother.
  - split; [congruence|exact Hother].
Qed.

End FurtherDevices.

(** * Further properties: construction and the wording of commands *)

Section FurtherCommands.
Context {nltk : Nltk}.
Variable html : string.
Import PyStr PyText Isha.




Lemma and_then_raise {A B : Type} (f : IO A) (k : A -> IO B) (m m' : machine) (e : exn) :
  f m = (Raise e, m') -> and_then f k m = (Raise e, m').
Proof. intro H. unfold and_then. now rewrite H. Qed.



(** X21. The wording of a command counts only up to the case of its
    letters and the white space around it: two commands that are the
    same once lower-cased and stripped make [process_command] do the same
    and reply the same, except when the matcher has no answer, where each
    is echoed as it was given. *)
Theorem command_wording_ignored (w : world) (c1 c2 : string) (m : machine) :
  c1 <> EmptyString -> c2 <> EmptyString ->
  strip (lower c1) = strip (lower c2) ->
  process_command w c1 m = process_command w c2 m \/
  exists m',
    process_command w c1 m =
      (Return (String.append "I didn't find a specific answer. You said: " c1),
       traced m' [say (String.append "I didn't find a specific answer. You said: " c1)]) /\
    process_command w c2 m =
      (Return (String.append "I didn't find a specific answer. You said: " c2),
       traced m' [say (String.append "I didn't find a specific answer. You said: " c2)]).
Proof.
  intros H1 H2 H. unfold process_command, logging_info.
  destruct c1 as [|a1 c1]; [congruence|]. destruct c2 as [|a2 c2]; [congruence|].
  cbn [truthy negb]. cbv iota. rewrite H.
  set (cmd := strip (lower (String a2 c2))).
  rewrite !and_then_occur. cbv beta.
  destruct (startswith "open " cmd); [left; reflexivity|].
  destruct (substring_in "time" cmd && (List.length (split_whitespace cmd) <=? 3));
    [left; reflexivity|].
  destruct (substring_in "date" cmd && (List.length (split_whitespace cmd) <=? 3));
    [left; reflexivity|].
  destruct (substring_in "who are you" cmd || substring_in "your name" cmd); [left; reflexivity|].
  destruct (qna_get_answer cmd (traced m [logged INFO (String.append "Processing command: " cmd)]))
    as [[[a|]|e] m'] eqn:E.
  - rewrite !(and_then_run _ _ _ _ _ E).
    destruct (truthy a); [left; reflexivity|]. right. exists m'. split; apply reply_traced.
  - rewrite !(and_then_run _ _ _ _ _ E).
    right. exists m'. split; apply reply_traced.
  - rewrite !(and_then_raise _ _ _ _ _ E). left. reflexivity.
Qed.

End FurtherCommands.

(** * Instances on the scenario corpus: witnesses and counterexamples *)

Section Witnesses.
Import Sample.


Lemma answer_none_without_corpus_witness :
  X (self fresh) = None /\
  ask_all ["who are you"; "time"] fresh = (Return [None; None], fresh) /\
  parse_lines (stripped_lines (PyStr.readlines no_colon_text)) [] = Return [] /\
  __init__ (one_file (Text no_colon_text)) None fresh
  = (Return tt, {| self := unloaded qna_path; log := [warning_no_valid_lines] |}) /\
  ask_all ["who are you"; "time"] (snd (__init__ (one_file (Text no_colon_text)) None fresh))
  = (Return [None; None], snd (__init__ (one_file (Text no_colon_text)) None fresh)).
Proof.
  destruct (@answer_none_without_corpus Sample.nltk) as (Hguard & Hempty).
  split; [reflexivity|].
  split; [exact (Hguard fresh ["who are you"; "time"] (or_intror (or_intror eq_refl)))|].
  split; [reflexivity|].
  exact (Hempty (one_file (Text no_colon_text)) None fresh no_colon_text
           ["who are you"; "time"] eq_refl eq_refl).
Defined.


Lemma answer_comes_from_corpus_witness :
  get_answer "what time is it" scenario
  = (Return (Some "Check your clock."), scenario) /\
  exists v x qv sims best e,
    vectorizer (self scenario) = Some v /\
    X (self scenario) = Some x /\
    Sklearn.transform v [_preprocess_text "what time is it"] = Return qv /\
    Sklearn.cosine_similarity qv x = Return sims /\
    Numpy.argmax (concat sims) = Return best /\
    nth_error (dataset (self scenario)) best = Some e /\
    "Check your clock." = answer e.
Proof.
  split; [exact scenario_time|].
  exact (proj2 (answer_comes_from_corpus scenario scenario
                  "what time is it" "Check your clock." scenario_time)).
Defined.










(** C9 fails on a missing file and on an unreadable one: the constructor
    returns normally in both cases and only writes to the log. *)
Lemma missing_corpus_not_raised :
  __init__ (one_file NoFile) None fresh
  = (Return tt, {| self := unloaded qna_path; log := [warning_not_found qna_path] |}) /\
  __init__ (one_file (Unreadable OSError)) None fresh
  = (Return tt, {| self := unloaded qna_path; log := [exception_failed OSError] |}).
Proof. split; reflexivity. Qed.

Lemma load_failure_degrades_witness :
  files (one_file NoFile) (path_or_default (one_file NoFile) None) = NoFile /\
  fst (__init__ (one_file NoFile) None fresh) = Return tt /\
  ask_all ["who are you"; "what time is it"] (snd (__init__ (one_file NoFile) None fresh))
  = (Return [None; None], snd (__init__ (one_file NoFile) None fresh)).
Proof.
  split; [reflexivity|].
  destruct (load_failure_degrades (one_file NoFile) None fresh
              ["who are you"; "what time is it"] (or_introl eq_refl))
    as (Hret & _ & _ & Hask).
  split; [exact Hret | exact Hask].
Defined.


Lemma answer_never_raises_witness :
  constructed scenario /\
  exists r, get_answer "tell me a joke" scenario = (Return r, scenario).
Proof.
  split; [exact scenario_constructed|].
  exact (answer_never_raises scenario "tell me a joke" scenario_constructed).
Defined.

Lemma script_loader_rejects_second_colon_witness :
  PyStr.split colon (PyStr.strip clock_text) = ["what time is it"; " it is 10"; "30"] /\
  exists msg,
    TrainingScript.load_dataset (one_file (Text clock_text)) qna_path
    = Raise (ValueError msg).
Proof.
  split; [reflexivity|].
  apply (script_loader_rejects_second_colon (one_file (Text clock_text)) qna_path
           clock_text clock_text eq_refl (or_introl eq_refl) eq_refl).
  discriminate.
Defined.



Lemma answer_ignores_case_witness :
  PyStr.lower "What TIME is it" = PyStr.lower "what time is it" /\
  get_answer "What TIME is it" scenario = get_answer "what time is it" scenario.
Proof.
  split; [reflexivity|].
  exact (answer_ignores_case scenario "What TIME is it" "what time is it" eq_refl).
Defined.


(** The scenario corpus, question by question: the question of the
    second entry is answered by that entry; the question of the first
    entry, a question outside the corpus and a question made of
    one-letter words are answered [None]. *)
Theorem scenario_answers :
  dataset (self scenario) = [who_entry; time_entry] /\
  ask_all ["what time is it"; "who are you"; "tell me a joke"; "who r u"] scenario
  = (Return [Some "Check your clock."; None; None; None], scenario).
Proof.
  split; [exact scenario_dataset|].
  apply (ask_all_same scenario
           (fun q => if String.eqb q "what time is it"
                     then Some "Check your clock." else None)).
  intros q [<-|[<-|[<-|[<-|[]]]]].
  - exact scenario_time.
  - apply scenario_unknown. vm_compute. reflexivity.
  - apply scenario_unknown. vm_compute. reflexivity.
  - apply scenario_unknown. vm_compute. reflexivity.
Qed.


End Witnesses.

Section MoreWitnesses.
Import Sample.






End MoreWitnesses.

Section AssistantWitnesses.
Import Sample Isha.

Lemma seated_constructed : constructed (brain Desk.seated).
Proof. exact scenario_constructed. Qed.



Lemma command_reply_is_spoken_witness :
  exists evs resp,
    process_command Desk.morning "Open  https://Example.com/Path " Desk.seated
    = (Return resp, traced Desk.seated (evs ++ [say resp])) /\
    forallb command_event evs = true /\
    resp <> EmptyString.
Proof.
  exact (command_reply_is_spoken Desk.morning "Open  https://Example.com/Path "
           Desk.seated seated_constructed).
Defined.

Lemma blank_command_echoed_witness :
  index_terms EmptyString = [] /\
  process_command Desk.morning "   " Desk.seated =
    (Return "I didn't find a specific answer. You said:    ",
     traced Desk.seated
       [logged INFO "Processing command: ";
        say "I didn't find a specific answer. You said:    "]).
Proof.
  split; [reflexivity|].
  apply (blank_command_echoed Desk.morning "   " Desk.seated seated_constructed);
    [reflexivity|discriminate|reflexivity].
Defined.




Lemma toggle_voice_after_failed_calibration_witness :
  calibrate Desk.morning {| device_index := Some 1 |} = failed "stream closed" /\
  exists m' evs,
    toggle_voice Desk.morning Desk.seated = (Return "ok", m') /\
    microphone (assistant m') = Some {| device_index := Some 1 |} /\
    is_listening (assistant m') = true /\
    trace m' = trace Desk.seated ++ evs /\
    In (say "Invalid selection.") evs.
Proof.
  split; [reflexivity|].
  apply (toggle_voice_after_failed_calibration Desk.morning Desk.seated
           ["Built-in"; "USB"] 1%Z "stream closed");
    try reflexivity.
  simpl. lia.
Defined.

Lemma toggle_voice_index_out_of_range_witness :
  read_index (Desk.desk 100%R (done 7%Z) (done tt)) = done 7%Z /\
  exists evs,
    toggle_voice (Desk.desk 100%R (done 7%Z) (done tt)) Desk.seated
    = (Return "no-mic", traced Desk.seated evs) /\
    existsb is_say evs = false.
Proof.
  split; [reflexivity|].
  apply (toggle_voice_index_out_of_range (Desk.desk 100%R (done 7%Z) (done tt))
           Desk.seated "Built-in" ["USB"] 7%Z); try reflexivity.
  right. simpl. lia.
Defined.

Lemma check_internet_remembers_witness :
  exists b m1,
    check_internet Desk.morning Desk.seated = (Return b, m1) /\
    check_internet (Desk.desk 105%R (done 1%Z) (done tt)) m1 = (Return b, m1).
Proof.
  apply (check_internet_remembers Desk.morning
           (Desk.desk 105%R (done 1%Z) (done tt)) Desk.seated);
    cbn [Desk.seated Desk.morning Desk.desk assistant new_assistant time
         internet_check_interval last_internet_check]; lra.
Defined.

Lemma command_wording_ignored_witness :
  PyStr.strip (PyStr.lower "  What TIME ") = "what time" /\
  (process_command Desk.morning "  What TIME " Desk.seated
   = process_command Desk.morning "what time" Desk.seated \/
   exists m',
     process_command Desk.morning "  What TIME " Desk.seated =
       (Return "I didn't find a specific answer. You said:   What TIME ",
        traced m' [say "I didn't find a specific answer. You said:   What TIME "]) /\
     process_command Desk.morning "what time" Desk.seated =
       (Return "I didn't find a specific answer. You said: what time",
        traced m' [say "I didn't find a specific answer. You said: what time"])).
Proof.
  split; [reflexivity|].
  apply (command_wording_ignored Desk.morning "  What TIME " "what time" Desk.seated);
    [discriminate|discriminate|reflexivity].
Defined.

End AssistantWitnesses.
